(** * Shapes: inclusion shapes, feasibility bounds and collision tests

    A shallow embedding of [Shapes.py].  Python numbers are read as real
    numbers ([R]); the count of circles is a Python [int] ([Z]).  A call
    either returns a value or raises, which is the [result] type below.
    Where an outcome turns on a comparison at a boundary (the guard of the
    radius bound, the containment test, the collision test) rounding
    decides, and these are embedded a second time over IEEE binary64
    ([Binary64]), the arithmetic of Python's [float]. *)

From Stdlib Require Import Floats.
From Stdlib Require Import QArith.
From Stdlib Require Import Reals Lra Lia ZArith List Ascii String.
From stdpp Require Import gmap strings.

(** ** Outcomes of a Python call *)

(** The exceptions by the place that raises them.  In Python
    [ZeroDivisionError] is a subclass of [ArithmeticError]; the two are
    kept apart here, the first raised by a division, the second by the
    [raise] statement of [determine_max_radius]. *)
Inductive exception : Set :=
| ArithmeticError      (* the guard of determine_max_radius *)
| ZeroDivisionError    (* [/] on a zero divisor *)
| TypeError            (* a constructor called with wrong arguments *)
| EvalError.           (* eval fails: SyntaxError, NameError or AttributeError *)

Inductive result (A : Type) : Type :=
| Return (a : A)
| Raise (e : exception).

Arguments Return {A} a.
Arguments Raise {A} e.

(** Sequencing: an exception raised by the first computation propagates.
    Programs below are written with stdpp's [x ← m; k]. *)
#[export] Instance result_ret : MRet result := fun A a => Return a.
#[export] Instance result_bind : MBind result := fun A B k m =>
  match m with
  | Return a => k a
  | Raise e => Raise e
  end.

Definition raises {A : Type} (m : result A) : Prop :=
  exists e, m = Raise e.

(** ** Comparisons and division on numbers *)

Definition Rgtb (x y : R) : bool := if Rgt_dec x y then true else false.
Definition Rltb (x y : R) : bool := if Rlt_dec x y then true else false.
Definition Rleb (x y : R) : bool := if Rle_dec x y then true else false.

(** Python's true division ([from __future__ import division]). *)
Definition py_div (a b : R) : result R :=
  if Req_dec_T b 0%R then Raise ZeroDivisionError else Return (a / b)%R.

(** [math.sqrt] of the sum of the squared coordinate differences. *)
Definition centre_distance (p q : R * R) : R :=
  sqrt ((fst p - fst q) ^ 2 + (snd p - snd q) ^ 2)%R.

(** [random.uniform(a, b)] is [a + (b - a) * random()], where [random()]
    draws from the half-open interval [0, 1).  The draw is an explicit
    argument. *)
Record unit_draw : Type := mk_draw {
  draw :> R;
  draw_range : (0 <= draw < 1)%R
}.

Definition uniform (a b : R) (u : unit_draw) : R := (a + (b - a) * u)%R.

(** The draw 1/2. *)
Definition half_draw : unit_draw := mk_draw (1 / 2) ltac:(lra).

(** ** Text *)

Definition nl : string := String "010"%char EmptyString.

(** [sep.join(columns)] *)
Fixpoint join (sep : string) (columns : list string) : string :=
  match columns with
  | [] => EmptyString
  | [c] => c
  | c :: rest => c +:+ sep +:+ join sep rest
  end.

(** ** The shape classes *)

(** A material is an opaque reference held by a shape. *)
Definition Material : Type := string.

Module Ellipse.

(** The instance attributes set by [Shape.__init__] and [Ellipse.__init__]. *)
Record t : Type := make {
  material : Material;
  centre : R * R;
  short_axis : R;
  long_axis : R;
  angle : R
}.

(** [Ellipse.__init__] *)
Definition init (material : Material) (centre : R * R)
    (short_axis long_axis angle : R) : t :=
  make material centre short_axis long_axis angle.

Definition Area (self : t) : R :=
  (PI * short_axis self * long_axis self)%R.

Definition AspectRatio (self : t) : result R :=
  py_div (short_axis self) (long_axis self).

(** [Shape.Orientation]: the body is [pass]. *)
Definition Orientation (self : t) : unit := tt.

Definition GenerateSketch (fmt : R -> string) (self : t) : list string :=
  [ "t = p.MakeSketchTransform(sketchPlane=f[0], sketchPlaneSide=SIDE1, origin=("
      +:+ fmt (fst (centre self)) +:+ ", " +:+ fmt (snd (centre self)) +:+ ", 0.0))";
    "s = myModel.ConstrainedSketch(name='__profile__', sheetSize=20.0, transform=t)";
    "s.setPrimaryObject(option=SUPERIMPOSE)";
    "s.EllipseByCenterPerimeter(center=(0.0, 0.0), axisPoint1=("
      +:+ fmt (long_axis self) +:+ ", 0.0), axisPoint2=(0.0, "
      +:+ fmt (short_axis self) +:+ "))" ].

(** [Ellipse.__str__]; [fmt] is the interpreter's rendering of a number
    by [str.format]. *)
Definition str (fmt : R -> string) (self : t) : result string :=
  ratio ← AspectRatio self;
  Return (fmt (fst (centre self)) +:+ ", " +:+ fmt (snd (centre self)) +:+ ", "
          +:+ fmt (long_axis self) +:+ ", " +:+ fmt (short_axis self) +:+ ", "
          +:+ fmt ratio +:+ ", " +:+ fmt (Area self) +:+ ", " +:+ fmt (angle self)).

End Ellipse.

Module Circle.

(** A circle is an instance of a subclass of [Ellipse]: it carries the
    attributes of an ellipse and nothing else. *)
Record t : Type := make { ellipse :> Ellipse.t }.

(** [Circle.__init__]: [Ellipse.__init__(material, centre, radius, radius)],
    the angle taking its default. *)
Definition init (material : Material) (centre : R * R) (radius : R) : t :=
  make (Ellipse.init material centre radius radius 0%R).

(** The [radius] property. *)
Definition radius (self : t) : R := Ellipse.short_axis self.

Definition set_short_axis (value : R) (self : t) : t :=
  make (Ellipse.make (Ellipse.material self) (Ellipse.centre self)
          value (Ellipse.long_axis self) (Ellipse.angle self)).

Definition set_long_axis (value : R) (self : t) : t :=
  make (Ellipse.make (Ellipse.material self) (Ellipse.centre self)
          (Ellipse.short_axis self) value (Ellipse.angle self)).

(** The [radius] setter: two assignments, one after the other. *)
Definition set_radius (value : R) (self : t) : t :=
  set_long_axis value (set_short_axis value self).

Definition perimeter_location (self : t) : R * R :=
  ((fst (Ellipse.centre self) + radius self)%R, fst (Ellipse.centre self)).

(** [Circle.determine_max_radius] (static). *)
Definition determine_max_radius (buffersize : R) (numcircles : Z) (scalefactor : R)
  : result R :=
  if Rgtb (buffersize * 2 + (IZR numcircles - 1) * buffersize)%R 1%R
  then Raise ArithmeticError
  else
    q ← py_div (1 - buffersize - buffersize * IZR numcircles)%R (IZR numcircles);
    h ← py_div q 2%R;
    Return (h * scalefactor)%R.

(** [Circle.determine_radius] (static). *)
Definition determine_radius (max_radius : R) (equalsize : bool) (u : unit_draw) : R :=
  if equalsize then max_radius else uniform (1 / 100)%R max_radius u.

Definition is_location_inside_square (self : t) (buffersize : R) : bool :=
  if Rltb (fst (Ellipse.centre self) - radius self)%R buffersize
     || Rgtb (fst (Ellipse.centre self) + radius self)%R (1 - buffersize)%R
  then false
  else if Rltb (snd (Ellipse.centre self) - radius self)%R buffersize
          || Rgtb (snd (Ellipse.centre self) + radius self)%R (1 - buffersize)%R
  then false
  else true.

(** The loop of [Circle.check_intersect].  Besides the verdict it returns
    the number of circles the loop has taken from [circles], which makes
    the early [return] observable. *)
Fixpoint check_intersect_scan (self : t) (circles : list t) : bool * nat :=
  match circles with
  | [] => (false, 0%nat)
  | circle :: rest =>
      let centre_distance :=
        centre_distance (Ellipse.centre self) (Ellipse.centre circle) in
      if Rgtb centre_distance (radius self + radius circle)%R then
        let (verdict, taken) := check_intersect_scan self rest in
        (verdict, S taken)
      else if Rleb centre_distance (Rabs (radius self - radius circle)%R) then
        (true, 1%nat)
      else
        (true, 1%nat)
  end.

Definition check_intersect (self : t) (circles : list t) : bool :=
  fst (check_intersect_scan self circles).

(** [Circle.__str__] *)
Definition str (fmt : R -> string) (self : t) : string :=
  fmt (fst (Ellipse.centre self)) +:+ ", " +:+ fmt (snd (Ellipse.centre self))
  +:+ ", " +:+ fmt (radius self) +:+ ", " +:+ fmt (Ellipse.Area self).

(** A call on a circle object: the method with its arguments. *)
Inductive method : Type :=
| get_radius
| assign_radius (value : R)
| call_perimeter_location
| call_is_location_inside_square (buffersize : R)
| call_check_intersect (circles : list t)
| call_str (fmt : R -> string)
| call_Area
| call_AspectRatio
| call_Orientation
| call_GenerateSketch (fmt : R -> string).

(** What a call hands back. *)
Inductive answer : Type :=
| Nothing
| Number (x : R)
| Point (p : R * R)
| Truth (b : bool)
| Text (s : string)
| Lines (l : list string)
| Raised (e : exception).

(** The object after the call, and the answer.  Only the setter assigns
    to an attribute of [self]. *)
Definition invoke (m : method) (self : t) : t * answer :=
  match m with
  | get_radius => (self, Number (radius self))
  | assign_radius value => (set_radius value self, Nothing)
  | call_perimeter_location => (self, Point (perimeter_location self))
  | call_is_location_inside_square buffersize =>
      (self, Truth (is_location_inside_square self buffersize))
  | call_check_intersect circles => (self, Truth (check_intersect self circles))
  | call_str fmt => (self, Text (str fmt self))
  | call_Area => (self, Number (Ellipse.Area self))
  | call_AspectRatio =>
      (self, match Ellipse.AspectRatio self with
             | Return x => Number x
             | Raise e => Raised e
             end)
  | call_Orientation => (self, Nothing)
  | call_GenerateSketch fmt => (self, Lines (Ellipse.GenerateSketch fmt self))
  end.

Definition invoke_all (ms : list method) (self : t) : t :=
  fold_left (fun c m => fst (invoke m c)) ms self.

End Circle.

Coercion Circle.ellipse : Circle.t >-> Ellipse.t.

Module Rectangle.

(** [Rectangle] adds nothing to [Shape]: an instance has the two
    attributes of the base class, and no [__str__] of its own. *)
Record t : Type := make {
  material : Material;
  centre : R * R
}.

End Rectangle.

(** An instance of a subclass of [Shape], by the class of the object. *)
Inductive Shape : Type :=
| AnEllipse (e : Ellipse.t)
| ACircle (c : Circle.t)
| ARectangle (r : Rectangle.t).

(** ** The exporters *)

(** What the interpreter supplies to [str.format]: the text of a number,
    and the default text of an object whose class defines no [__str__]. *)
Record formatter : Type := {
  fmt_number : R -> string;
  fmt_object : Rectangle.t -> string
}.

(** ['{0}'.format(shape)]: the [__str__] of the object's own class. *)
Definition format_shape (f : formatter) (s : Shape) : result string :=
  match s with
  | AnEllipse e => Ellipse.str (fmt_number f) e
  | ACircle c => Return (Circle.str (fmt_number f) c)
  | ARectangle r => Return (fmt_object f r)
  end.

(** The loop [for shape in shapes: output_str += '{0}\n'.format(shape)]. *)
Fixpoint export_lines (f : formatter) (shapes : list Shape) (output_str : string)
  : result string :=
  match shapes with
  | [] => Return output_str
  | s :: rest =>
      line ← format_shape f s;
      export_lines f rest (output_str +:+ line +:+ nl)
  end.

Definition matrix_header : string :=
  "**Matrix:" +:+ nl
  +:+ "**Bottom left corner X, Bottom left corner Y, height, width" +:+ nl
  +:+ "0, 0, 1, 1" +:+ nl +:+ nl.

(** [Ellipse.ExportInclusions] (static). *)
Definition Ellipse_ExportInclusions (f : formatter) (shapes : list Shape)
  : result string :=
  let output_str := "**Matrix:" +:+ nl in
  let output_str := output_str
    +:+ "**Bottom left corner X, Bottom left corner Y, height, width" +:+ nl in
  let output_str := output_str +:+ "0, 0, 1, 1" +:+ nl +:+ nl in
  let output_str := output_str +:+ "**Ellipse distribution" +:+ nl in
  let output_str := output_str
    +:+ "**Centre X, centre Y, long axis, short axis, aspect ratio, area, orientation(rad)"
    +:+ nl in
  export_lines f shapes output_str.

(** [Circle.ExportInclusions] (static). *)
Definition Circle_ExportInclusions (f : formatter) (shapes : list Shape)
  : result string :=
  let output_str := "**Matrix:" +:+ nl in
  let output_str := output_str
    +:+ "**Bottom left corner X, Bottom left corner Y, height, width" +:+ nl in
  let output_str := output_str +:+ "0, 0, 1, 1" +:+ nl +:+ nl in
  let output_str := output_str +:+ "**Circle distribution" +:+ nl in
  let output_str := output_str +:+ "**Centre X, centre Y, radius, area" +:+ nl in
  export_lines f shapes output_str.

(** ** The factory *)

(** The values of the enumeration [shapes]. *)
Definition shapes : list string := ["Circle"; "Ellipse"; "Rectangle"].

Module ShapeFactory.

(** The three nested [Factory] classes. *)
Inductive factory_class : Set :=
| EllipseFactory
| CircleFactory
| RectangleFactory.

(** An instance of a [Factory] class; [oid] is the identity of the object. *)
Record factory : Set := mk_factory {
  cls : factory_class;
  oid : nat
}.

(** The keyword arguments of a call, by the parameter names the
    constructors know; [kw_other] lists any further keywords. *)
Record kwargs : Type := mk_kwargs {
  kw_material : option Material;
  kw_centre : option (R * R);
  kw_radius : option R;
  kw_short_axis : option R;
  kw_long_axis : option R;
  kw_angle : option R;
  kw_other : list string
}.

(** [Factory.create] of each class, called with the keywords.  A
    constructor raises [TypeError] on a keyword it does not know and on a
    missing [material]; absent keywords take the defaults of the
    constructor.  [Rectangle.Factory.create] takes no keyword and calls
    [Rectangle()], which lacks the two arguments of [Shape.__init__]. *)
Definition create (k : factory_class) (kw : kwargs) : result Shape :=
  match k with
  | EllipseFactory =>
      match kw_radius kw, kw_other kw, kw_material kw with
      | None, [], Some m =>
          Return (AnEllipse (Ellipse.init m
                    (default (0%R, 0%R) (kw_centre kw))
                    (default 0%R (kw_short_axis kw))
                    (default 0%R (kw_long_axis kw))
                    (default 0%R (kw_angle kw))))
      | _, _, _ => Raise TypeError
      end
  | CircleFactory =>
      match kw_short_axis kw, kw_long_axis kw, kw_angle kw,
            kw_other kw, kw_material kw with
      | None, None, None, [], Some m =>
          Return (ACircle (Circle.init m
                    (default (0%R, 0%R) (kw_centre kw))
                    (default 0%R (kw_radius kw))))
      | _, _, _, _, _ => Raise TypeError
      end
  | RectangleFactory => Raise TypeError
  end.

(** *** [eval(shape + '.Factory()')]

    The embedding covers the expressions in which [shape] is a name,
    possibly with blanks around it: [eval] skips leading blanks, and blanks
    before the dot are not significant.  The name is looked up in the
    module; the module binds a class with a nested [Factory] to exactly
    three names.  Every other name fails, as a reserved word
    ([SyntaxError]), as an unbound name ([NameError]) or as an object
    without a [Factory] attribute ([AttributeError]); these are the one
    outcome [EvalError].  On any other string the embedding gives no
    outcome ([None]). *)

Definition is_blank (c : ascii) : bool :=
  (c =? " ")%char || (c =? "009")%char.

Definition is_name_start (c : ascii) : bool :=
  let n := nat_of_ascii c in
  ((65 <=? n) && (n <=? 90) || (97 <=? n) && (n <=? 122) || (n =? 95))%nat.

Definition is_name_char (c : ascii) : bool :=
  let n := nat_of_ascii c in
  is_name_start c || ((48 <=? n) && (n <=? 57))%nat.

Fixpoint all_name_chars (s : string) : bool :=
  match s with
  | EmptyString => true
  | String c s' => is_name_char c && all_name_chars s'
  end.

Definition identifier (s : string) : bool :=
  match s with
  | EmptyString => false
  | String c s' => is_name_start c && all_name_chars s'
  end.

Fixpoint lstrip (s : string) : string :=
  match s with
  | EmptyString => EmptyString
  | String c s' => if is_blank c then lstrip s' else s
  end.

Fixpoint rstrip (s : string) : string :=
  match s with
  | EmptyString => EmptyString
  | String c s' =>
      match rstrip s' with
      | EmptyString => if is_blank c then EmptyString else String c EmptyString
      | r => String c r
      end
  end.

(** The names the module binds to a class with a nested [Factory]. *)
Definition class_named (name : string) : option factory_class :=
  if decide (name = "Ellipse") then Some EllipseFactory
  else if decide (name = "Circle") then Some CircleFactory
  else if decide (name = "Rectangle") then Some RectangleFactory
  else None.

Definition eval_Factory (shape : string) : option (result factory_class) :=
  let name := rstrip (lstrip shape) in
  if identifier name then
    match class_named name with
    | Some k => Some (Return k)
    | None => Some (Raise EvalError)
    end
  else None.

(** The class attribute [ShapeFactory.factories], and the number of
    [Factory] objects created so far (the next object identity). *)
Record state : Type := mk_state {
  factories : gmap string factory;
  allocated : nat
}.

Definition initial : state := mk_state ∅ 0.

(** [ShapeFactory.createShape] (static).  [None]: the embedding of [eval]
    gives no outcome for [shape]. *)
Definition createShape (shape : string) (kw : kwargs) (st : state)
  : option (result Shape * state) :=
  match factories st !! shape with
  | Some f => Some (create (cls f) kw, st)
  | None =>
      match eval_Factory shape with
      | None => None
      | Some (Raise e) => Some (Raise e, st)
      | Some (Return k) =>
          let f := mk_factory k (allocated st) in
          Some (create (cls f) kw,
                mk_state (<[shape := f]> (factories st)) (S (allocated st)))
      end
  end.

End ShapeFactory.

(** ** The radius bound and the two tests in binary64 arithmetic

    Python's [float] is the IEEE binary64 format; a decimal literal denotes
    the nearest binary64 value, here as there.  Division raises on a zero
    divisor.  The count of circles is a float that holds an integer, as
    Python converts an [int] below 2^53 without rounding. *)

#[local] Set Warnings "-inexact-float".

Module Binary64.

Definition determine_max_radius (buffersize numcircles scalefactor : float)
  : result float :=
  if (1 <? buffersize * 2 + (numcircles - 1) * buffersize)%float
  then Raise ArithmeticError
  else if (numcircles =? 0)%float then Raise ZeroDivisionError
  else Return ((((1 - buffersize - buffersize * numcircles) / numcircles) / 2)
               * scalefactor)%float.

(** A circle object whose attributes are binary64 numbers. *)
Record circle : Type := mk_circle {
  material : Material;
  centre : float * float;
  short_axis : float;
  long_axis : float;
  angle : float
}.

(** [Circle.__init__] *)
Definition init (material : Material) (centre : float * float) (radius : float)
  : circle :=
  mk_circle material centre radius radius 0%float.

(** The [radius] property. *)
Definition radius (self : circle) : float := short_axis self.

(** [Circle.is_location_inside_square]; [a > b] is the comparison
    [b < a], and a comparison with a NaN is false. *)
Definition is_location_inside_square (self : circle) (buffersize : float) : bool :=
  if (fst (centre self) - radius self <? buffersize)%float
     || (1 - buffersize <? fst (centre self) + radius self)%float
  then false
  else if (snd (centre self) - radius self <? buffersize)%float
          || (1 - buffersize <? snd (centre self) + radius self)%float
  then false
  else true.

(** The loop of [Circle.check_intersect], with the number of circles
    taken from the list.  [x**2] is the rounded product [x * x], and
    [math.sqrt] the correctly rounded square root. *)
Fixpoint check_intersect_scan (self : circle) (circles : list circle)
  : bool * nat :=
  match circles with
  | [] => (false, 0%nat)
  | circle :: rest =>
      let centre_distance :=
        PrimFloat.sqrt
          ((fst (centre self) - fst (centre circle))
           * (fst (centre self) - fst (centre circle))
           + (snd (centre self) - snd (centre circle))
             * (snd (centre self) - snd (centre circle)))%float in
      if (radius self + radius circle <? centre_distance)%float then
        let (verdict, taken) := check_intersect_scan self rest in
        (verdict, S taken)
      else if (centre_distance <=? PrimFloat.abs (radius self - radius circle))%float
      then (true, 1%nat)
      else (true, 1%nat)
  end.

Definition check_intersect (self : circle) (circles : list circle) : bool :=
  fst (check_intersect_scan self circles).

End Binary64.

(** ** Vocabulary of the properties *)

(** The radius for the count [n1] is strictly above the radius for the
    count [n2], when both calls return. *)
Definition decreasing_at (buffer scale : R) (n1 n2 : Z) : Prop :=
  forall r1 r2 : R,
    Circle.determine_max_radius buffer n1 scale = Return r1 ->
    Circle.determine_max_radius buffer n2 scale = Return r2 ->
    (r1 > r2)%R.

(** A point is on the perimeter when it satisfies the equation of the
    circle. *)
Definition on_perimeter (c : Circle.t) (p : R * R) : Prop :=
  ((fst p - fst (Ellipse.centre c)) ^ 2 + (snd p - snd (Ellipse.centre c)) ^ 2
   = Circle.radius c ^ 2)%R.

(** Two circles collide when the Euclidean distance of their centres is
    at most the sum of their radii. *)
Definition collides (c1 c2 : Circle.t) : Prop :=
  (centre_distance (Ellipse.centre c1) (Ellipse.centre c2)
   <= Circle.radius c1 + Circle.radius c2)%R.

(** Both axes of a circle hold its radius. *)
Definition synchronized (c : Circle.t) : Prop :=
  Ellipse.short_axis c = Ellipse.long_axis c
  /\ Ellipse.long_axis c = Circle.radius c.

(** The columns of a report line, by kind of shape. *)
Definition circle_columns (c : Circle.t) : list R :=
  [ fst (Ellipse.centre c); snd (Ellipse.centre c);
    Circle.radius c; Ellipse.Area c ].

Definition ellipse_columns (e : Ellipse.t) : list R :=
  [ fst (Ellipse.centre e); snd (Ellipse.centre e);
    Ellipse.long_axis e; Ellipse.short_axis e;
    (Ellipse.short_axis e / Ellipse.long_axis e)%R;
    Ellipse.Area e; Ellipse.angle e ].

(** The line of a shape in a report: its columns, separated by a comma
    and a blank, and a newline. *)
Definition report_line (f : formatter) (s : Shape) : string :=
  match s with
  | ACircle c => join ", " (map (fmt_number f) (circle_columns c))
  | AnEllipse e => join ", " (map (fmt_number f) (ellipse_columns e))
  | ARectangle r => fmt_object f r
  end +:+ nl.

Fixpoint report_lines (f : formatter) (shapes : list Shape) : string :=
  match shapes with
  | [] => EmptyString
  | s :: rest => report_line f s +:+ report_lines f rest
  end.

Definition circle_header : string :=
  "**Circle distribution" +:+ nl
  +:+ "**Centre X, centre Y, radius, area" +:+ nl.

Definition ellipse_header : string :=
  "**Ellipse distribution" +:+ nl
  +:+ "**Centre X, centre Y, long axis, short axis, aspect ratio, area, orientation(rad)"
  +:+ nl.

(** No ellipse of the collection has a long axis of zero. *)
Definition no_degenerate_ellipse (shapes : list Shape) : Prop :=
  forall e, In (AnEllipse e) shapes -> Ellipse.long_axis e <> 0%R.

(** A registry filled by [createShape] alone: every key holds an instance
    of the class that [eval] resolves the key to, created earlier. *)
Definition registry_ok (st : ShapeFactory.state) : Prop :=
  forall (k : string) (fa : ShapeFactory.factory),
    ShapeFactory.factories st !! k = Some fa ->
    ShapeFactory.eval_Factory k = Some (Return (ShapeFactory.cls fa))
    /\ (ShapeFactory.oid fa < ShapeFactory.allocated st)%nat.

(** A call with keywords for a circle. *)
Definition sample_kwargs : ShapeFactory.kwargs :=
  ShapeFactory.mk_kwargs (Some "steel") (Some (1 / 2, 1 / 2)%R) (Some (1 / 5)%R)
            None None None [].

(** The radius a circle holds after a sequence of calls: the value of the
    last assignment to [radius], the radius it had when there is none. *)
Fixpoint last_assigned (ms : list Circle.method) (r : R) : R :=
  match ms with
  | [] => r
  | Circle.assign_radius value :: rest => last_assigned rest value
  | _ :: rest => last_assigned rest r
  end.

(** The class of the factory that builds shapes of the class of [s]. *)
Definition factory_of (s : Shape) : ShapeFactory.factory_class :=
  match s with
  | AnEllipse _ => ShapeFactory.EllipseFactory
  | ACircle _ => ShapeFactory.CircleFactory
  | ARectangle _ => ShapeFactory.RectangleFactory
  end.

(** A caller that makes one call of [createShape] after the other, going
    on after a call that raises. *)
Fixpoint createShape_all (calls : list (string * ShapeFactory.kwargs))
    (st : ShapeFactory.state) : option ShapeFactory.state :=
  match calls with
  | [] => Some st
  | (shape, kw) :: rest =>
      match ShapeFactory.createShape shape kw st with
      | None => None
      | Some (_, st1) => createShape_all rest st1
      end
  end.

(** The keywords [material], [centre] and [radius], and no other. *)
Definition circle_kwargs (m : Material) (centre : R * R) (radius : R)
  : ShapeFactory.kwargs :=
  ShapeFactory.mk_kwargs (Some m) (Some centre) (Some radius) None None None [].

(** An ellipse of the collection has a long axis of zero. *)
Definition has_degenerate_ellipse (shapes : list Shape) : Prop :=
  exists e, In (AnEllipse e) shapes /\ Ellipse.long_axis e = 0%R.

(** The number a finite binary64 value stands for. *)
Definition exact (x : float) : option Q :=
  match Prim2SF x with
  | S754_zero _ => Some 0%Q
  | S754_finite s m e =>
      Some ((if s then -1 else 1) * inject_Z (Zpos m) * Qpower 2 e)%Q
  | _ => None
  end.



(** The kind is a name, with or without blanks around it. *)
Definition named (shape : string) : bool :=
  ShapeFactory.identifier (ShapeFactory.rstrip (ShapeFactory.lstrip shape)).

(** * Properties *)

(** ** Comparisons *)

Lemma Rgtb_true (x y : R) : Rgtb x y = true <-> (x > y)%R.
Proof. unfold Rgtb. destruct (Rgt_dec x y); split; intros; try easy; lra. Qed.

Lemma Rgtb_false (x y : R) : Rgtb x y = false <-> (x <= y)%R.
Proof. unfold Rgtb. destruct (Rgt_dec x y); split; intros; try easy; lra. Qed.

Lemma Rltb_true (x y : R) : Rltb x y = true <-> (x < y)%R.
Proof. unfold Rltb. destruct (Rlt_dec x y); split; intros; try easy; lra. Qed.

Lemma Rltb_false (x y : R) : Rltb x y = false <-> (y <= x)%R.
Proof. unfold Rltb. destruct (Rlt_dec x y); split; intros; try easy; lra. Qed.

Lemma Rleb_true (x y : R) : Rleb x y = true <-> (x <= y)%R.
Proof. unfold Rleb. destruct (Rle_dec x y); split; intros; try easy; lra. Qed.

Lemma py_div_nonzero (a b : R) : b <> 0%R -> py_div a b = Return (a / b)%R.
Proof. intros Hb. unfold py_div. destruct (Req_dec_T b 0); [contradiction | reflexivity]. Qed.

Lemma py_div_zero (a : R) : py_div a 0 = Raise ZeroDivisionError.
Proof. unfold py_div. destruct (Req_dec_T 0 0); [reflexivity | contradiction]. Qed.

(** ** The radius bound *)

Section MaxRadius.

Local Open Scope R_scope.

(** The guard of [determine_max_radius] is a bound on [numcircles + 1]
    buffers: one at each edge and one between neighbours. *)
Lemma guard_buffers (b : R) (n : Z) :
  b * 2 + (IZR n - 1) * b = b * (IZR n + 1).
Proof. ring. Qed.

Lemma determine_max_radius_guarded (b : R) (n : Z) (s : R) :
  b * (IZR n + 1) > 1 ->
  Circle.determine_max_radius b n s = Raise ArithmeticError.
Proof.
  intros H. unfold Circle.determine_max_radius.
  rewrite guard_buffers. apply Rgtb_true in H. now rewrite H.
Qed.

Lemma determine_max_radius_zero (b : R) (s : R) :
  b <= 1 ->
  Circle.determine_max_radius b 0 s = Raise ZeroDivisionError.
Proof.
  intros H. unfold Circle.determine_max_radius.
  rewrite guard_buffers.
  assert (Hg : Rgtb (b * (0 + 1)) 1 = false) by (apply Rgtb_false; lra).
  rewrite Hg. now rewrite py_div_zero.
Qed.

Lemma determine_max_radius_value (b : R) (n : Z) (s : R) :
  n <> 0%Z -> b * (IZR n + 1) <= 1 ->
  Circle.determine_max_radius b n s
  = Return (((1 - b - b * IZR n) / IZR n) / 2 * s).
Proof.
  intros Hn H. unfold Circle.determine_max_radius.
  rewrite guard_buffers. apply Rgtb_false in H. rewrite H.
  rewrite py_div_nonzero by (intros E; apply eq_IZR_R0 in E; contradiction).
  cbn. rewrite py_div_nonzero by lra. reflexivity.
Qed.

(** The three outcomes, by cases on the inputs. *)
Lemma determine_max_radius_cases (b : R) (n : Z) (s : R) :
  (b * (IZR n + 1) > 1
   /\ Circle.determine_max_radius b n s = Raise ArithmeticError)
  \/ (b * (IZR n + 1) <= 1 /\ n = 0%Z
      /\ Circle.determine_max_radius b n s = Raise ZeroDivisionError)
  \/ (b * (IZR n + 1) <= 1 /\ n <> 0%Z
      /\ Circle.determine_max_radius b n s
         = Return (((1 - b - b * IZR n) / IZR n) / 2 * s)).
Proof.
  destruct (Rgt_dec (b * (IZR n + 1)) 1) as [Hg | Hg].
  - left. split; [assumption | now apply determine_max_radius_guarded].
  - right. assert (Hle : b * (IZR n + 1) <= 1) by lra.
    destruct (Z.eq_dec n 0%Z) as [-> | Hn].
    + left. repeat split; try assumption.
      apply determine_max_radius_zero. lra.
    + right. repeat split; try assumption.
      now apply determine_max_radius_value.
Qed.

(** C1 (as stated in the specification, at one input): with a buffer of
    1/2 and one circle, [buffer * (n + 2)] is 3/2, and the call
    returns 0. *)
Lemma determine_max_radius_n_plus_2_not_raised :
  ~ ((1 / 2) * (IZR 1 + 2) > 1 ->
     raises (Circle.determine_max_radius (1 / 2) 1 1)).
Proof.
  intros H. destruct H as [e He]; [lra |].
  rewrite determine_max_radius_value in He by (try lia; lra).
  discriminate He.
Qed.

(** C3: whenever the call returns, the radius is
    [((1 - buffer - buffer * n) / n) / 2 * scale]; with a buffer of 0.05,
    four circles and scale 1 it returns 0.09375, over the reals and in
    binary64 arithmetic alike. *)
Theorem determine_max_radius_formula :
  (forall (buffer_size : R) (num_circles : Z) (scale_factor r : R),
      Circle.determine_max_radius buffer_size num_circles scale_factor = Return r ->
      r = ((1 - buffer_size - buffer_size * IZR num_circles) / IZR num_circles)
          / 2 * scale_factor)
  /\ Circle.determine_max_radius (5 / 100) 4 1 = Return (9375 / 100000)
  /\ Binary64.determine_max_radius 0.05 4 1 = Return 0.09375%float.
Proof.
  split; [| split].
  - intros b n s r H.
    destruct (determine_max_radius_cases b n s)
      as [[_ E] | [(_ & _ & E) | (_ & _ & E)]];
      rewrite E in H; try discriminate H.
    now injection H as <-.
  - rewrite determine_max_radius_value by (try lia; lra).
    f_equal. lra.
  - vm_compute. reflexivity.
Qed.

Lemma determine_max_radius_formula_witness :
  Circle.determine_max_radius (1 / 4) 2 1 = Return (1 / 16)
  /\ 1 / 16 = ((1 - 1 / 4 - 1 / 4 * IZR 2) / IZR 2) / 2 * 1.
Proof.
  assert (E : Circle.determine_max_radius (1 / 4) 2 1 = Return (1 / 16)).
  { rewrite determine_max_radius_value by (try lia; lra). f_equal. lra. }
  split; [exact E |].
  exact (proj1 determine_max_radius_formula (1 / 4) 2%Z 1 (1 / 16) E).
Defined.

(** C6 (as stated in the specification, at two inputs): with scale 0 the
    radius is 0 for one circle and for two; and with scale 1 the radius for
    the count -1 lies below the radius for the count 1. *)
Lemma determine_max_radius_not_decreasing :
  ~ decreasing_at (1 / 10) 0 1 2 /\ ~ decreasing_at (1 / 10) 1 (-1) 1.
Proof.
  split; intros H.
  - specialize (H 0 0).
    assert (0 > 0); [| lra].
    apply H; rewrite determine_max_radius_value by (try lia; lra);
      f_equal; lra.
  - specialize (H (- (1 / 2)) (4 / 10)).
    assert (- (1 / 2) > 4 / 10); [| lra].
    apply H; rewrite determine_max_radius_value by (try lia; lra);
      f_equal; lra.
Qed.

(** C6 (amended): for a positive scale and counts [1 <= n1 < n2] on which
    neither call raises, the radius for [n1] is strictly above the radius
    for [n2]. *)
Theorem determine_max_radius_decreasing
    (buffer scale : R) (n1 n2 : Z) (r1 r2 : R) :
  0 < scale -> (1 <= n1 < n2)%Z ->
  Circle.determine_max_radius buffer n1 scale = Return r1 ->
  Circle.determine_max_radius buffer n2 scale = Return r2 ->
  r1 > r2.
Proof.
  intros Hs [H1 H12] E1 E2.
  destruct (determine_max_radius_cases buffer n1 scale)
    as [[_ E] | [(_ & _ & E) | (Hb & _ & E)]];
    rewrite E in E1; try discriminate E1.
  injection E1 as <-. clear E.
  destruct (determine_max_radius_cases buffer n2 scale)
    as [[_ E] | [(_ & _ & E) | (_ & _ & E)]];
    rewrite E in E2; try discriminate E2.
  injection E2 as <-. clear E.
  assert (Hn1 : 1 <= IZR n1) by (apply IZR_le in H1; exact H1).
  assert (Hn12 : IZR n1 < IZR n2) by (apply IZR_lt; exact H12).
  assert (Hb1 : 0 < 1 - buffer) by nra.
  assert (Hinv : / IZR n2 < / IZR n1) by (apply Rinv_lt_contravar; nra).
  assert (Ef : forall x, x <> 0 ->
             (1 - buffer - buffer * x) / x / 2 * scale
             = ((1 - buffer) * / x - buffer) * (scale / 2)).
  { intros x Hx. field. exact Hx. }
  rewrite !Ef by lra.
  assert (Hgap : 0 < (1 - buffer) * (/ IZR n1 - / IZR n2))
    by (apply Rmult_lt_0_compat; lra).
  nra.
Qed.

Lemma determine_max_radius_decreasing_witness : 3 / 10 > 1 / 10.
Proof.
  apply (determine_max_radius_decreasing (1 / 5) 1 1 2 (3 / 10) (1 / 10));
    [lra | lia | |];
    rewrite determine_max_radius_value by (try lia; lra); f_equal; lra.
Defined.

End MaxRadius.

(** ** Radius sampling, containment, perimeter *)

Section CircleGeometry.

Local Open Scope R_scope.

(** C5 (as stated in the specification, at one input): with a maximum
    radius of 0 and the draw 1/2 the value is 1/200, outside the (empty)
    interval from 0.01 to 0. *)
Lemma determine_radius_outside_interval :
  ~ (1 / 100 <= Circle.determine_radius 0 false half_draw <= 0).
Proof. intros [H1 H2]. lra. Qed.

(** C5 (amended): with [equal_size] true the call returns [max_radius];
    with [equal_size] false and [max_radius >= 0.01], every value it
    returns lies between 0.01 and [max_radius]. *)
Theorem determine_radius_range (max_radius : R) (u : unit_draw) :
  Circle.determine_radius max_radius true u = max_radius
  /\ (1 / 100 <= max_radius ->
      1 / 100 <= Circle.determine_radius max_radius false u <= max_radius).
Proof.
  split; [reflexivity |].
  intros H. unfold Circle.determine_radius, uniform.
  destruct u as [u [Hu0 Hu1]]; cbn. nra.
Qed.

Lemma determine_radius_range_witness :
  1 / 100 <= Circle.determine_radius (1 / 10) false half_draw <= 1 / 10.
Proof. apply (proj2 (determine_radius_range (1 / 10) half_draw)). lra. Defined.

(** For a radius that is not negative the equation says that the point is
    at distance [radius] from the centre. *)
Lemma on_perimeter_distance (c : Circle.t) (p : R * R) :
  0 <= Circle.radius c ->
  on_perimeter c p <-> centre_distance p (Ellipse.centre c) = Circle.radius c.
Proof.
  intros Hr. unfold on_perimeter, centre_distance. split; intros H.
  - rewrite H. replace (Circle.radius c ^ 2) with (Rsqr (Circle.radius c))
      by (unfold Rsqr; ring).
    now apply sqrt_Rsqr.
  - rewrite <- H, pow2_sqrt; [reflexivity |].
    apply Rplus_le_le_0_compat; apply pow2_ge_0.
Qed.

(** C10: [perimeter_location] returns [(x + r, x)], and that point is on
    the perimeter exactly when [x = y] (which is what [(x - y)^2 = 0]
    says). *)
Theorem perimeter_location_second_component (c : Circle.t) :
  let x := fst (Ellipse.centre c) in
  let y := snd (Ellipse.centre c) in
  let r := Circle.radius c in
  Circle.perimeter_location c = (x + r, x)
  /\ (on_perimeter c (Circle.perimeter_location c) <-> x = y \/ (x - y) ^ 2 = 0)
  /\ (on_perimeter c (Circle.perimeter_location c) <-> x = y).
Proof.
  destruct c as [[m [x y] r l a]].
  unfold on_perimeter, Circle.perimeter_location, Circle.radius; cbn.
  assert (Hzero : forall d : R, d * d = 0 -> d = 0).
  { intros d Hd. apply Rmult_integral in Hd. tauto. }
  split; [reflexivity |]. split; split.
  - intros H. left. assert (Hd : x - y = 0) by (apply Hzero; lra). lra.
  - intros [-> | H]; [ring | lra].
  - intros H. assert (Hd : x - y = 0) by (apply Hzero; lra). lra.
  - intros ->. ring.
Qed.

End CircleGeometry.

(** ** Collision of circles *)

Section Collision.

Local Open Scope R_scope.

Lemma scan_hit (c1 c2 : Circle.t) (rest : list Circle.t) :
  collides c1 c2 ->
  Circle.check_intersect_scan c1 (c2 :: rest) = (true, 1%nat).
Proof.
  intros H. cbn [Circle.check_intersect_scan].
  apply Rgtb_false in H. rewrite H.
  now destruct (Rleb _ _).
Qed.

Lemma scan_miss (c1 c2 : Circle.t) (rest : list Circle.t) :
  ~ collides c1 c2 ->
  Circle.check_intersect_scan c1 (c2 :: rest)
  = (fst (Circle.check_intersect_scan c1 rest),
     S (snd (Circle.check_intersect_scan c1 rest))).
Proof.
  intros H. cbn [Circle.check_intersect_scan].
  assert (Hg : Rgtb (centre_distance (Ellipse.centre c1) (Ellipse.centre c2))
                 (Circle.radius c1 + Circle.radius c2) = true).
  { apply Rgtb_true. unfold collides in H. lra. }
  rewrite Hg. now destruct (Circle.check_intersect_scan c1 rest).
Qed.

Lemma collides_dec (c1 c2 : Circle.t) : {collides c1 c2} + {~ collides c1 c2}.
Proof. apply Rle_dec. Qed.

(** A scan that meets no colliding circle takes the whole list. *)
Lemma scan_clear (c1 : Circle.t) (cs : list Circle.t) :
  Forall (fun c => ~ collides c1 c) cs ->
  Circle.check_intersect_scan c1 cs = (false, length cs).
Proof.
  induction 1 as [| c cs Hc _ IH]; [reflexivity |].
  rewrite scan_miss by assumption. now rewrite IH.
Qed.

(** A scan stops at the first colliding circle. *)
Lemma scan_first_hit (c1 hit : Circle.t) (pre post : list Circle.t) :
  Forall (fun c => ~ collides c1 c) pre ->
  collides c1 hit ->
  Circle.check_intersect_scan c1 (pre ++ hit :: post) = (true, S (length pre)).
Proof.
  intros Hpre Hhit. induction Hpre as [| c cs Hc _ IH]; cbn [app length].
  - now apply scan_hit.
  - rewrite scan_miss by assumption. now rewrite IH.
Qed.

(** Every list either has no colliding circle or splits at the first. *)
Lemma first_collision (c1 : Circle.t) (cs : list Circle.t) :
  Forall (fun c => ~ collides c1 c) cs
  \/ exists pre hit post,
       cs = pre ++ hit :: post
       /\ Forall (fun c => ~ collides c1 c) pre /\ collides c1 hit.
Proof.
  induction cs as [| c cs IH]; [left; constructor |].
  destruct (collides_dec c1 c) as [Hc | Hc].
  - right. exists [], c, cs. repeat split; [constructor | assumption].
  - destruct IH as [IH | (pre & hit & post & -> & Hpre & Hhit)].
    + left. now constructor.
    + right. exists (c :: pre), hit, post.
      repeat split; [now constructor | assumption].
Qed.

End Collision.

(** ** The circle invariant *)

Section CircleInvariant.

Lemma init_synchronized (m : Material) (centre : R * R) (r : R) :
  synchronized (Circle.init m centre r) /\ Circle.radius (Circle.init m centre r) = r.
Proof. repeat split. Qed.

(** The setter synchronizes the axes of any object, whatever they held. *)
Lemma set_radius_synchronized (value : R) (c : Circle.t) :
  synchronized (Circle.set_radius value c)
  /\ Circle.radius (Circle.set_radius value c) = value.
Proof. repeat split. Qed.

Lemma invoke_synchronized (m : Circle.method) (c : Circle.t) :
  synchronized c -> synchronized (fst (Circle.invoke m c)).
Proof.
  intros H. destruct m; cbn [Circle.invoke fst]; try exact H.
  apply set_radius_synchronized.
Qed.

Lemma invoke_all_synchronized (ms : list Circle.method) (c : Circle.t) :
  synchronized c -> synchronized (Circle.invoke_all ms c).
Proof.
  unfold Circle.invoke_all. revert c.
  induction ms as [| m ms IH]; intros c H; cbn [fold_left]; [exact H |].
  apply IH. now apply invoke_synchronized.
Qed.

(** C9: a circle is constructed with both axes equal to its radius;
    assigning to [radius] writes both axes; and the axes stay equal to the
    radius through every sequence of calls on the circle. *)
Theorem circle_axes_synchronized :
  (forall (m : Material) (centre : R * R) (r : R),
      synchronized (Circle.init m centre r)
      /\ Circle.radius (Circle.init m centre r) = r)
  /\ (forall (value : R) (c : Circle.t),
        synchronized (Circle.set_radius value c)
        /\ Circle.radius (Circle.set_radius value c) = value
        /\ Ellipse.short_axis (Circle.set_radius value c) = value
        /\ Ellipse.long_axis (Circle.set_radius value c) = value)
  /\ (forall (ms : list Circle.method) (m : Material) (centre : R * R) (r : R),
        synchronized (Circle.invoke_all ms (Circle.init m centre r))).
Proof.
  split; [exact init_synchronized |]. split.
  - intros value c. repeat split.
  - intros ms m centre r. apply invoke_all_synchronized, init_synchronized.
Qed.

End CircleInvariant.

(** ** The exporters *)

Section Exporters.

Variable f : formatter.

Lemma append_assoc (a b c : string) : (a +:+ b) +:+ c = a +:+ (b +:+ c).
Proof.
  induction a as [| ch a IH]; [reflexivity |].
  change (String ch ((a +:+ b) +:+ c) = String ch (a +:+ (b +:+ c))).
  now f_equal.
Qed.

Lemma append_empty (a : string) : a +:+ EmptyString = a.
Proof.
  induction a as [| ch a IH]; [reflexivity |].
  change (String ch (a +:+ EmptyString) = String ch a). now f_equal.
Qed.

Lemma format_shape_line (s : Shape) :
  (forall e, s = AnEllipse e -> Ellipse.long_axis e <> 0%R) ->
  exists line, format_shape f s = Return line /\ line +:+ nl = report_line f s.
Proof.
  intros Hs. destruct s as [e | c | r]; cbn [format_shape report_line].
  - unfold Ellipse.str, Ellipse.AspectRatio.
    rewrite py_div_nonzero by (now apply Hs). eexists. split; reflexivity.
  - eexists. split; reflexivity.
  - eexists. split; reflexivity.
Qed.

Lemma export_lines_report (shapes : list Shape) (output_str : string) :
  no_degenerate_ellipse shapes ->
  export_lines f shapes output_str = Return (output_str +:+ report_lines f shapes).
Proof.
  revert output_str.
  induction shapes as [| s rest IH]; intros output_str Hok;
    cbn [export_lines report_lines].
  - now rewrite append_empty.
  - destruct (format_shape_line s) as (line & -> & Hline).
    { intros e ->. apply Hok. now left. }
    cbn [mbind result_bind].
    rewrite IH by (intros e He; apply Hok; now right).
    f_equal. rewrite <- Hline. now rewrite !append_assoc.
Qed.

Lemma export_lines_degenerate (e : Ellipse.t) (rest : list Shape)
    (output_str : string) :
  Ellipse.long_axis e = 0%R ->
  export_lines f (AnEllipse e :: rest) output_str = Raise ZeroDivisionError.
Proof.
  intros H. cbn [export_lines format_shape].
  unfold Ellipse.str, Ellipse.AspectRatio. rewrite H, py_div_zero. reflexivity.
Qed.

End Exporters.

(** C8 (as stated in the specification, at one input): the report of one
    ellipse with the default axes, which are zero, is not produced; the
    aspect ratio divides by the long axis. *)
Lemma ExportInclusions_degenerate_ellipse :
  ~ (forall f : formatter,
        exists text,
          Ellipse_ExportInclusions f [AnEllipse (Ellipse.init "m" (0%R, 0%R) 0 0 0)]
          = Return text).
Proof.
  intros H.
  destruct (H {| fmt_number := fun _ => "0"; fmt_object := fun _ => "r" |})
    as [text E].
  unfold Ellipse_ExportInclusions in E.
  rewrite export_lines_degenerate in E by reflexivity. discriminate E.
Qed.

(** C8 (amended): for every shape collection in which no ellipse has a
    long axis of zero, each exporter returns the container header block
    and its own column header, followed by one line per shape in input
    order, with the columns of the shape's kind; on the empty collection
    the report is the headers alone. *)
Theorem ExportInclusions_report (f : formatter) (shapes : list Shape) :
  no_degenerate_ellipse shapes ->
  Circle_ExportInclusions f shapes
  = Return (matrix_header +:+ circle_header +:+ report_lines f shapes)
  /\ Ellipse_ExportInclusions f shapes
     = Return (matrix_header +:+ ellipse_header +:+ report_lines f shapes)
  /\ Circle_ExportInclusions f [] = Return (matrix_header +:+ circle_header)
  /\ Ellipse_ExportInclusions f [] = Return (matrix_header +:+ ellipse_header).
Proof.
  intros Hok. unfold Circle_ExportInclusions, Ellipse_ExportInclusions.
  repeat split; try reflexivity.
  - rewrite export_lines_report by assumption. reflexivity.
  - rewrite export_lines_report by assumption. reflexivity.
Qed.

Lemma ExportInclusions_report_witness :
  let f := {| fmt_number := fun _ => "0"; fmt_object := fun _ => "r" |} in
  let shapes := [ ACircle (Circle.init "m" (1 / 2, 1 / 2)%R (1 / 5));
                  AnEllipse (Ellipse.init "m" (0, 0)%R 1 2 0) ] in
  Circle_ExportInclusions f shapes
  = Return (matrix_header +:+ circle_header +:+ report_lines f shapes).
Proof.
  intros f shapes. apply (ExportInclusions_report f shapes).
  intros e [H | [H | []]]; [discriminate H |].
  injection H as <-. cbn. lra.
Defined.

(** ** The factory *)

Section Factory.

Import ShapeFactory.

Lemma initial_ok : registry_ok initial.
Proof. intros k fa H. cbn in H. now rewrite lookup_empty in H. Qed.

Lemma class_named_shapes (name : string) (k : factory_class) :
  class_named name = Some k ->
  name ∈ shapes /\ eval_Factory name = Some (Return k).
Proof.
  unfold class_named. repeat case_decide; intros Hk; try discriminate Hk;
    subst name; injection Hk as <-; (split; [set_solver | reflexivity]).
Qed.

Lemma class_named_other (name : string) :
  name ∉ shapes -> class_named name = None.
Proof.
  intros Hout. unfold class_named.
  repeat case_decide; try reflexivity; subst name; exfalso; apply Hout;
    set_solver.
Qed.

Lemma name_char_not_blank (c : ascii) :
  is_name_char c = true -> is_blank c = false.
Proof.
  destruct c as [[] [] [] [] [] [] [] []]; vm_compute; congruence.
Qed.

Lemma rstrip_name (s : string) : all_name_chars s = true -> rstrip s = s.
Proof.
  induction s as [| c s IH]; [reflexivity |].
  cbn [all_name_chars rstrip]. intros [Hc Hs]%andb_prop.
  rewrite (IH Hs). destruct s; [| reflexivity].
  now rewrite (name_char_not_blank c Hc).
Qed.

Lemma strip_identifier (s : string) :
  identifier s = true -> rstrip (lstrip s) = s.
Proof.
  destruct s as [| c s]; [discriminate |].
  cbn [identifier]. intros [Hc Hs]%andb_prop.
  assert (Hn : is_name_char c = true) by (unfold is_name_char; now rewrite Hc).
  cbn [lstrip]. rewrite (name_char_not_blank c Hn).
  apply rstrip_name. cbn [all_name_chars]. now rewrite Hn, Hs.
Qed.

Lemma eval_Factory_other (name : string) :
  identifier name = true -> name ∉ shapes ->
  eval_Factory name = Some (Raise EvalError).
Proof.
  intros Hid Hout. unfold eval_Factory.
  rewrite (strip_identifier name Hid), Hid.
  now rewrite (class_named_other name Hout).
Qed.

(** A call on a key of the registry leaves the state as it is. *)
Lemma createShape_cached (shape : string) (kw : kwargs) (st : state)
    (fa : factory) :
  factories st !! shape = Some fa ->
  createShape shape kw st = Some (create (cls fa) kw, st).
Proof. intros H. unfold createShape. now rewrite H. Qed.

Lemma createShape_first_use (shape : string) (kw : kwargs) (st : state)
    (k : factory_class) :
  class_named shape = Some k ->
  factories st !! shape = None ->
  createShape shape kw st
  = Some (create k kw,
          mk_state (<[shape := mk_factory k (allocated st)]> (factories st))
                   (S (allocated st))).
Proof.
  intros Hk Hnone. unfold createShape. rewrite Hnone.
  destruct (class_named_shapes shape k Hk) as [_ ->]. reflexivity.
Qed.

Lemma createShape_ok (shape : string) (kw : kwargs) (st st1 : state)
    (r : result Shape) :
  registry_ok st ->
  createShape shape kw st = Some (r, st1) ->
  registry_ok st1.
Proof.
  intros Hok H. unfold createShape in H.
  destruct (factories st !! shape) as [fa |] eqn:Hl.
  { injection H as _ <-. exact Hok. }
  destruct (eval_Factory shape) as [[k | e] |] eqn:He; [| | discriminate H].
  - injection H as _ <-. intros key fa Hkey. cbn in Hkey |- *.
    destruct (decide (shape = key)) as [<- | Hne].
    + rewrite lookup_insert_eq in Hkey. injection Hkey as <-. cbn.
      split; [exact He | lia].
    + rewrite lookup_insert_ne in Hkey by exact Hne.
      destruct (Hok key fa Hkey) as [H1 H2]. split; [exact H1 | lia].
  - injection H as _ <-. exact Hok.
Qed.

(** The name of a class followed by a blank is evaluated like the name:
    the call builds a circle, and the registry holds the padded key. *)
Lemma createShape_padded_value :
  createShape "Circle " sample_kwargs initial
  = Some (Return (ACircle (Circle.init "steel" (1 / 2, 1 / 2)%R (1 / 5))),
          mk_state {[ "Circle " := mk_factory CircleFactory 0 ]} 1).
Proof.
  unfold createShape. cbn [factories allocated initial].
  rewrite lookup_empty.
  change (eval_Factory "Circle ") with (Some (Return CircleFactory)).
  reflexivity.
Qed.

(** C7 (as stated in the specification, at one input): the kind
    ["Circle "], with a blank at its end, is none of the three values of
    the enumeration, and [createShape] does not fail on it. *)
Lemma createShape_padded_kind_accepted :
  ~ ("Circle " ∉ shapes ->
     exists e st1,
       createShape "Circle " sample_kwargs initial = Some (Raise e, st1)).
Proof.
  intros H. destruct H as (e & st1 & E).
  - unfold shapes. rewrite !elem_of_cons, elem_of_nil.
    intros [H | [H | [H | []]]]; discriminate H.
  - rewrite createShape_padded_value in E. discriminate E.
Qed.

(** C7 (amended): on a registry filled by [createShape], a kind that is
    a name other than the three values of the enumeration makes the call
    fail, in [eval], and the registry is left as it was.  For a value of
    the enumeration the first call creates the factory object of that kind
    and stores it under the kind; after any call the registry holds a
    factory of that kind under the kind, and a further call uses it and
    changes nothing: no new object, the same registry. *)
Theorem createShape_registry (shape : string) (kw kw2 : kwargs) (st : state) :
  registry_ok st ->
  (identifier shape = true -> shape ∉ shapes ->
   createShape shape kw st = Some (Raise EvalError, st))
  /\ (forall k : factory_class,
        class_named shape = Some k ->
        (factories st !! shape = None ->
         createShape shape kw st
         = Some (create k kw,
                 mk_state (<[shape := mk_factory k (allocated st)]> (factories st))
                          (S (allocated st))))
        /\ (forall (r : result Shape) (st1 : state),
              createShape shape kw st = Some (r, st1) ->
              r = create k kw
              /\ registry_ok st1
              /\ (exists fa, factories st1 !! shape = Some fa /\ cls fa = k)
              /\ createShape shape kw2 st1 = Some (create k kw2, st1))).
Proof.
  intros Hok. split.
  - intros Hid Hout. unfold createShape.
    destruct (factories st !! shape) as [fa |] eqn:Hl.
    + destruct (Hok shape fa Hl) as [He _].
      rewrite (eval_Factory_other shape Hid Hout) in He. discriminate He.
    + now rewrite (eval_Factory_other shape Hid Hout).
  - intros k Hk. split; [now apply createShape_first_use |].
    intros r st1 Hcall.
    assert (Hok1 : registry_ok st1) by exact (createShape_ok _ _ _ _ _ Hok Hcall).
    destruct (class_named_shapes shape k Hk) as [_ Hev].
    destruct (factories st !! shape) as [fa |] eqn:Hl.
    + assert (Hcls : cls fa = k).
      { destruct (Hok shape fa Hl) as [He _]. rewrite Hev in He.
        now injection He as ->. }
      rewrite (createShape_cached shape kw st fa Hl) in Hcall.
      injection Hcall as <- <-. rewrite Hcls.
      split; [reflexivity |]. split; [exact Hok |].
      split; [exists fa; now split |].
      rewrite (createShape_cached shape kw2 st fa Hl). now rewrite Hcls.
    + rewrite (createShape_first_use shape kw st k Hk Hl) in Hcall.
      injection Hcall as <- <-.
      split; [reflexivity |]. split; [exact Hok1 |]. split.
      * exists (mk_factory k (allocated st)). cbn [factories].
        now rewrite lookup_insert_eq.
      * apply (createShape_cached shape kw2 _ (mk_factory k (allocated st))).
        cbn [factories]. now rewrite lookup_insert_eq.
Qed.

Lemma createShape_registry_witness :
  exists st1,
    createShape "Circle" sample_kwargs initial
    = Some (create CircleFactory sample_kwargs, st1)
    /\ createShape "Circle" sample_kwargs st1
       = Some (create CircleFactory sample_kwargs, st1)
    /\ createShape "Square" sample_kwargs st1 = Some (Raise EvalError, st1).
Proof.
  pose proof (createShape_registry "Circle" sample_kwargs sample_kwargs
                initial initial_ok) as [_ Hkind].
  destruct (Hkind CircleFactory eq_refl) as [Hfirst Hnext].
  specialize (Hfirst (lookup_empty _)).
  destruct (Hnext _ _ Hfirst) as (_ & Hok1 & _ & Hagain).
  eexists. split; [exact Hfirst |]. split; [exact Hagain |].
  apply (createShape_registry "Square" sample_kwargs sample_kwargs _ Hok1);
    [reflexivity |].
  unfold shapes. rewrite !elem_of_cons, elem_of_nil.
  intros [H | [H | [H | []]]]; discriminate H.
Defined.

End Factory.

(** ** The tests and the guard in binary64 arithmetic *)

Section Binary64Laws.

Lemma SFcompare_antisym (x y : spec_float) :
  SFcompare y x = option_map CompOpp (SFcompare x y).
Proof.
  destruct x as [sx | sx | | sx mx ex], y as [sy | sy | | sy my ey];
    try destruct sx; try destruct sy; try reflexivity.
  all: cbn [SFcompare option_map]; rewrite (Z.compare_antisym ex ey);
    destruct (ex ?= ey)%Z; cbn [CompOpp]; try reflexivity;
    fold (Pos.compare my mx); fold (Pos.compare mx my);
    rewrite (Pos.compare_antisym mx my);
    destruct (mx ?= my)%positive; reflexivity.
Qed.

Lemma not_nan_spec (a : float) : is_nan a = false -> Prim2SF a <> S754_nan.
Proof.
  unfold is_nan. rewrite FloatAxioms.eqb_spec. intros H E.
  rewrite E in H. discriminate H.
Qed.

Lemma SFcompare_some (x y : spec_float) :
  x <> S754_nan -> y <> S754_nan -> exists c, SFcompare x y = Some c.
Proof.
  intros Hx Hy.
  destruct x as [sx | sx | | sx mx ex], y as [sy | sy | | sy my ey];
    try contradiction; cbn; eauto.
Qed.

(** Away from NaN, [a < b] is false exactly when [b <= a]. *)
Lemma ltb_false_leb (a b : float) :
  is_nan a = false -> is_nan b = false ->
  (a <? b)%float = false <-> (b <=? a)%float = true.
Proof.
  intros Ha Hb. rewrite FloatAxioms.ltb_spec, FloatAxioms.leb_spec.
  unfold SFltb, SFleb.
  rewrite (SFcompare_antisym (Prim2SF a) (Prim2SF b)).
  destruct (SFcompare_some _ _ (not_nan_spec a Ha) (not_nan_spec b Hb))
    as [c ->].
  destruct c; cbn; split; congruence.
Qed.

(** *** The guard of [determine_max_radius] *)

(** C1 (amended): the call raises the error of its guard exactly when the
    binary64 value of [buffer * 2 + (n - 1) * buffer], each operation
    rounded, is above 1; when it is not, 1 itself included, and [n] is not
    zero, the call returns a radius, and it returns in no other case.  In
    exact arithmetic the sum is [buffer * (n + 1)]. *)
Theorem determine_max_radius_guard (buffer n scale : float) :
  (Binary64.determine_max_radius buffer n scale = Raise ArithmeticError
   <-> (1 <? buffer * 2 + (n - 1) * buffer)%float = true)
  /\ ((exists r, Binary64.determine_max_radius buffer n scale = Return r)
      <-> (1 <? buffer * 2 + (n - 1) * buffer)%float = false
          /\ (n =? 0)%float = false)
  /\ (forall b m : R, (b * 2 + (m - 1) * b = b * (m + 1))%R).
Proof.
  unfold Binary64.determine_max_radius. split; [| split].
  - destruct (1 <? buffer * 2 + (n - 1) * buffer)%float; [easy |].
    destruct (n =? 0)%float; split; discriminate.
  - destruct (1 <? buffer * 2 + (n - 1) * buffer)%float.
    { split; [intros [r E]; discriminate E | intros [E _]; discriminate E]. }
    destruct (n =? 0)%float.
    { split; [intros [r E]; discriminate E | intros [_ E]; discriminate E]. }
    split; [easy | intros _; now eexists].
  - intros b m. ring.
Qed.

Lemma determine_max_radius_guard_witness :
  exists r, Binary64.determine_max_radius 0.25 3 1 = Return r.
Proof.
  apply (proj2 (proj1 (proj2 (determine_max_radius_guard 0.25 3 1)))).
  split; reflexivity.
Defined.

(** Two inputs near the boundary: the computed sum and the exact product
    fall on different sides of 1. *)
Lemma determine_max_radius_near_boundary :
  Binary64.determine_max_radius 0.00016 6249 1 = Raise ArithmeticError
  /\ (exists r, Binary64.determine_max_radius 0.1 9 1 = Return r)
  /\ Binary64.determine_max_radius 0.5 1 1 = Return 0%float.
Proof. split; [| split; [eexists |]]; vm_compute; reflexivity. Qed.

(** *** Containment in the square *)

Lemma inside_square_comparisons (c : Binary64.circle) (b : float) :
  Binary64.is_location_inside_square c b = true
  <-> (fst (Binary64.centre c) - Binary64.radius c <? b)%float = false
      /\ (1 - b <? fst (Binary64.centre c) + Binary64.radius c)%float = false
      /\ (snd (Binary64.centre c) - Binary64.radius c <? b)%float = false
      /\ (1 - b <? snd (Binary64.centre c) + Binary64.radius c)%float = false.
Proof.
  unfold Binary64.is_location_inside_square.
  destruct (_ - _ <? b)%float, (1 - b <? _ + _)%float; cbn [orb];
    try (split; [discriminate | intros (? & ? & ? & ?); discriminate]).
  destruct (_ - _ <? b)%float, (1 - b <? _ + _)%float; cbn [orb];
    split; try discriminate; try (intros (? & ? & ? & ?); discriminate);
    auto.
Qed.

(** C4 (as stated in the specification, at two inputs).  With the
    decimals 0.3, 0.5, 0.2 and 0.1 the four inequalities hold, and the
    code, which receives the nearest binary64 values, answers false.  With
    the binary64 values of 0.11, 0.5, 0.01 and 0.1 the code answers true,
    and the difference of the numbers that [centre.x] and [radius] stand
    for is below the number that [buffer_size] stands for. *)
Lemma is_location_inside_square_rounding :
  ~ ((1 # 10 <= (3 # 10) - (2 # 10) /\ (3 # 10) + (2 # 10) <= 1 - (1 # 10)
      /\ 1 # 10 <= (5 # 10) - (2 # 10) /\ (5 # 10) + (2 # 10) <= 1 - (1 # 10))%Q ->
     Binary64.is_location_inside_square
       (Binary64.init "m" (0.3, 0.5)%float 0.2) 0.1 = true)
  /\ ~ (Binary64.is_location_inside_square
          (Binary64.init "m" (0.11, 0.5)%float 0.01) 0.1 = true ->
        forall x r b : Q,
          exact 0.11 = Some x -> exact 0.01 = Some r -> exact 0.1 = Some b ->
          (b <= x - r)%Q).
Proof.
  split.
  - intros H. assert (E : false = true); [| discriminate E].
    apply H. repeat split; vm_compute; discriminate.
  - intros H.
    assert (E : Binary64.is_location_inside_square
                  (Binary64.init "m" (0.11, 0.5)%float 0.01) 0.1 = true)
      by (vm_compute; reflexivity).
    destruct (exact 0.11) as [x |] eqn:Ex; [| vm_compute in Ex; discriminate Ex].
    destruct (exact 0.01) as [r |] eqn:Er; [| vm_compute in Er; discriminate Er].
    destruct (exact 0.1) as [b |] eqn:Eb; [| vm_compute in Eb; discriminate Eb].
    specialize (H E x r b eq_refl eq_refl eq_refl).
    vm_compute in Ex, Er, Eb.
    injection Ex as <-. injection Er as <-. injection Eb as <-.
    vm_compute in H. apply H. reflexivity.
Qed.

(** C4 (amended): when none of the compared binary64 values is a NaN,
    the test answers true exactly when the four comparisons hold of the
    computed values: [centre.x - radius >= buffer_size],
    [centre.x + radius <= 1 - buffer_size] and the same for [y], where
    each difference and sum is the rounded one. *)
Theorem is_location_inside_square_computed (c : Binary64.circle) (b : float) :
  let x := fst (Binary64.centre c) in
  let y := snd (Binary64.centre c) in
  let r := Binary64.radius c in
  is_nan b = false -> is_nan (1 - b) = false ->
  is_nan (x - r) = false -> is_nan (x + r) = false ->
  is_nan (y - r) = false -> is_nan (y + r) = false ->
  Binary64.is_location_inside_square c b = true
  <-> (b <=? x - r)%float = true /\ (x + r <=? 1 - b)%float = true
      /\ (b <=? y - r)%float = true /\ (y + r <=? 1 - b)%float = true.
Proof.
  intros x y r Hb H1b Hxm Hxp Hym Hyp.
  rewrite inside_square_comparisons. fold x y r.
  rewrite (ltb_false_leb (x - r) b Hxm Hb).
  rewrite (ltb_false_leb (1 - b) (x + r) H1b Hxp).
  rewrite (ltb_false_leb (y - r) b Hym Hb).
  rewrite (ltb_false_leb (1 - b) (y + r) H1b Hyp).
  reflexivity.
Qed.

Lemma is_location_inside_square_computed_witness :
  Binary64.is_location_inside_square
    (Binary64.init "m" (0.5, 0.5)%float 0.25) 0.125 = true.
Proof.
  apply (is_location_inside_square_computed
           (Binary64.init "m" (0.5, 0.5)%float 0.25) 0.125);
    try reflexivity.
  repeat split; reflexivity.
Defined.

(** *** Collision of circles *)








End Binary64Laws.

(** * Further properties of the code *)

(** ** Area and aspect ratio *)

Section AreaAndRatio.

Local Open Scope R_scope.

Lemma invoke_all_app (ms1 ms2 : list Circle.method) (c : Circle.t) :
  Circle.invoke_all (ms1 ++ ms2) c
  = Circle.invoke_all ms2 (Circle.invoke_all ms1 c).
Proof. unfold Circle.invoke_all. apply fold_left_app. Qed.

Lemma synchronized_area (c : Circle.t) :
  synchronized c -> Ellipse.Area c = PI * Circle.radius c ^ 2.
Proof.
  intros [H1 H2]. unfold Ellipse.Area, Circle.radius in *.
  rewrite <- H1. ring.
Qed.

(** X1: whatever calls are made on a circle after its construction, its
    area is pi times the square of its radius. *)
Theorem circle_area_pi_r2 (ms : list Circle.method) (m : Material)
    (centre : R * R) (r : R) :
  let c := Circle.invoke_all ms (Circle.init m centre r) in
  Ellipse.Area c = PI * Circle.radius c ^ 2.
Proof.
  intros c. apply synchronized_area.
  apply invoke_all_synchronized, init_synchronized.
Qed.

(** X2: the aspect ratio of a constructed circle is 1 when its radius is
    not zero; for the radius zero, which is the default of the
    constructor, the call raises [ZeroDivisionError]. *)
Theorem circle_aspect_ratio (m : Material) (centre : R * R) (r : R) :
  (r <> 0 -> Ellipse.AspectRatio (Circle.init m centre r) = Return 1)
  /\ (r = 0 ->
      Ellipse.AspectRatio (Circle.init m centre r) = Raise ZeroDivisionError).
Proof.
  unfold Ellipse.AspectRatio; cbn. split.
  - intros Hr. rewrite py_div_nonzero by exact Hr. f_equal. now field.
  - intros ->. apply py_div_zero.
Qed.

Lemma circle_aspect_ratio_witness :
  Ellipse.AspectRatio (Circle.init "m" (0, 0) 2) = Return 1
  /\ Ellipse.AspectRatio (Circle.init "m" (0, 0) 0) = Raise ZeroDivisionError.
Proof.
  split.
  - apply (proj1 (circle_aspect_ratio "m" (0, 0) 2)). lra.
  - apply (proj2 (circle_aspect_ratio "m" (0, 0) 0)). reflexivity.
Defined.

(** X3: [AspectRatio] raises exactly when the long axis is zero; for axes
    with [0 < short_axis <= long_axis] it returns a ratio above 0 and at
    most 1. *)
Theorem aspect_ratio_range (e : Ellipse.t) :
  (raises (Ellipse.AspectRatio e) <-> Ellipse.long_axis e = 0)
  /\ (0 < Ellipse.short_axis e <= Ellipse.long_axis e ->
      exists q, Ellipse.AspectRatio e = Return q /\ 0 < q <= 1).
Proof.
  unfold Ellipse.AspectRatio. split.
  - split.
    + intros [ex He]. destruct (Req_dec_T (Ellipse.long_axis e) 0) as [E | E];
        [exact E |].
      rewrite py_div_nonzero in He by exact E. discriminate He.
    + intros ->. exists ZeroDivisionError. apply py_div_zero.
  - intros [Hs Hl]. rewrite py_div_nonzero by lra.
    eexists. split; [reflexivity |].
    assert (Hpos : 0 < Ellipse.long_axis e) by lra.
    split.
    + now apply Rdiv_lt_0_compat.
    + apply (Rmult_le_reg_r (Ellipse.long_axis e)); [exact Hpos |].
      unfold Rdiv. rewrite Rmult_assoc, Rinv_l by lra. lra.
Qed.

Lemma aspect_ratio_range_witness :
  exists q, Ellipse.AspectRatio (Ellipse.init "m" (0, 0) 1 2 0) = Return q
            /\ 0 < q <= 1.
Proof.
  apply (proj2 (aspect_ratio_range (Ellipse.init "m" (0, 0) 1 2 0))).
  cbn. lra.
Defined.

Lemma invoke_keeps_place (m : Circle.method) (c : Circle.t) :
  Ellipse.material (fst (Circle.invoke m c)) = Ellipse.material c
  /\ Ellipse.centre (fst (Circle.invoke m c)) = Ellipse.centre c
  /\ Ellipse.angle (fst (Circle.invoke m c)) = Ellipse.angle c.
Proof. destruct m; repeat split. Qed.

Lemma invoke_radius (m : Circle.method) (c : Circle.t) :
  Circle.radius (fst (Circle.invoke m c))
  = last_assigned [m] (Circle.radius c).
Proof. destruct m; reflexivity. Qed.

(** X4: no sequence of calls on a circle moves it or changes its material
    or angle, and the radius after the sequence is the value of the last
    assignment to [radius] (the radius before, when there is none). *)
Theorem invoke_all_effect (ms : list Circle.method) (c : Circle.t) :
  Ellipse.material (Circle.invoke_all ms c) = Ellipse.material c
  /\ Ellipse.centre (Circle.invoke_all ms c) = Ellipse.centre c
  /\ Ellipse.angle (Circle.invoke_all ms c) = Ellipse.angle c
  /\ Circle.radius (Circle.invoke_all ms c) = last_assigned ms (Circle.radius c).
Proof.
  unfold Circle.invoke_all. revert c.
  induction ms as [| m ms IH]; intros c; cbn [fold_left]; [repeat split |].
  destruct (IH (fst (Circle.invoke m c))) as (Hm & Hc & Ha & Hr).
  destruct (invoke_keeps_place m c) as (Hm1 & Hc1 & Ha1).
  rewrite Hm, Hc, Ha, Hr, Hm1, Hc1, Ha1, invoke_radius.
  repeat split. destruct m; reflexivity.
Qed.

End AreaAndRatio.

(** ** The radius bound, continued *)

Section MaxRadiusLaws.

Local Open Scope R_scope.

(** X5: the scale factor multiplies the radius found for the scale 1, and
    has no part in whether the call raises: a scale of 1/2 halves the
    radius, a scale of 2 doubles it. *)
Theorem determine_max_radius_scale (b : R) (n : Z) (s : R) :
  Circle.determine_max_radius b n s
  = match Circle.determine_max_radius b n 1 with
    | Return r => Return (r * s)
    | Raise e => Raise e
    end.
Proof.
  destruct (determine_max_radius_cases b n 1)
    as [[Hg E1] | [(Hle & Hn & E1) | (Hle & Hn & E1)]]; rewrite E1.
  - now apply determine_max_radius_guarded.
  - subst n. apply determine_max_radius_zero. lra.
  - rewrite determine_max_radius_value by assumption. f_equal. ring.
Qed.

(** X7: for zero circles the call never returns: it raises the error of
    the guard when the buffer is above 1, and [ZeroDivisionError]
    otherwise. *)
Theorem determine_max_radius_no_circles (b s : R) :
  (b > 1 -> Circle.determine_max_radius b 0 s = Raise ArithmeticError)
  /\ (b <= 1 -> Circle.determine_max_radius b 0 s = Raise ZeroDivisionError).
Proof.
  split.
  - intros H. apply determine_max_radius_guarded. lra.
  - apply determine_max_radius_zero.
Qed.

Lemma determine_max_radius_no_circles_witness :
  Circle.determine_max_radius 2 0 1 = Raise ArithmeticError
  /\ Circle.determine_max_radius (1 / 10) 0 1 = Raise ZeroDivisionError.
Proof.
  split.
  - apply (proj1 (determine_max_radius_no_circles 2 1)). lra.
  - apply (proj2 (determine_max_radius_no_circles (1 / 10) 1)). lra.
Defined.

End MaxRadiusLaws.

(** ** Containment in the square *)

Section Containment.

Local Open Scope R_scope.

Ltac inside_cases :=
  unfold Circle.is_location_inside_square, Rltb, Rgtb in *;
  repeat match goal with
         | |- context [Rlt_dec ?a ?b] => destruct (Rlt_dec a b)
         | |- context [Rgt_dec ?a ?b] => destruct (Rgt_dec a b)
         | H : context [Rlt_dec ?a ?b] |- _ => destruct (Rlt_dec a b)
         | H : context [Rgt_dec ?a ?b] |- _ => destruct (Rgt_dec a b)
         end;
  cbn [orb] in *; try discriminate; try reflexivity; try lra.

(** The four inequalities behind a positive answer. *)
Lemma inside_square_bounds (c : Circle.t) (b : R) :
  Circle.is_location_inside_square c b = true ->
  b <= fst (Ellipse.centre c) - Circle.radius c
  /\ fst (Ellipse.centre c) + Circle.radius c <= 1 - b
  /\ b <= snd (Ellipse.centre c) - Circle.radius c
  /\ snd (Ellipse.centre c) + Circle.radius c <= 1 - b.
Proof. intros H. inside_cases. Qed.

Lemma inside_square_from_bounds (c : Circle.t) (b : R) :
  b <= fst (Ellipse.centre c) - Circle.radius c ->
  fst (Ellipse.centre c) + Circle.radius c <= 1 - b ->
  b <= snd (Ellipse.centre c) - Circle.radius c ->
  snd (Ellipse.centre c) + Circle.radius c <= 1 - b ->
  Circle.is_location_inside_square c b = true.
Proof. intros H1 H2 H3 H4. inside_cases. Qed.

(** X9: a circle inside the square for one buffer is inside it for every
    smaller buffer. *)
Theorem inside_square_smaller_buffer (c : Circle.t) (b1 b2 : R) :
  b2 <= b1 ->
  Circle.is_location_inside_square c b1 = true ->
  Circle.is_location_inside_square c b2 = true.
Proof.
  intros Hb H. apply inside_square_bounds in H.
  apply inside_square_from_bounds; lra.
Qed.

Lemma inside_square_smaller_buffer_witness :
  Circle.is_location_inside_square
    (Circle.init "m" (1 / 2, 1 / 2) (1 / 4)) 0 = true.
Proof.
  apply (inside_square_smaller_buffer _ (1 / 10) 0); [lra |].
  apply inside_square_from_bounds; cbn; lra.
Defined.



End Containment.

(** ** Collision of circles, continued *)

Section CollisionLaws.

Local Open Scope R_scope.

Lemma centre_distance_sym (p q : R * R) :
  centre_distance p q = centre_distance q p.
Proof. unfold centre_distance. f_equal. ring. Qed.

Lemma collides_sym (c1 c2 : Circle.t) : collides c1 c2 <-> collides c2 c1.
Proof.
  unfold collides.
  rewrite (centre_distance_sym (Ellipse.centre c1)).
  rewrite (Rplus_comm (Circle.radius c1)). reflexivity.
Qed.

Lemma check_intersect_clear (c : Circle.t) (cs : list Circle.t) :
  Circle.check_intersect c cs = false
  <-> Forall (fun c2 => ~ collides c c2) cs.
Proof.
  unfold Circle.check_intersect.
  destruct (first_collision c cs)
    as [Hnone | (pre & hit & post & -> & Hpre & Hhit)].
  - rewrite (scan_clear _ _ Hnone). now split.
  - rewrite (scan_first_hit _ _ _ _ Hpre Hhit); cbn [fst].
    split; [discriminate |].
    intros H. apply Forall_app in H as [_ H]. inversion H; contradiction.
Qed.

Lemma check_intersect_hit (c : Circle.t) (cs : list Circle.t) :
  Circle.check_intersect c cs = true <-> Exists (collides c) cs.
Proof.
  destruct (Circle.check_intersect c cs) eqn:E.
  - split; [intros _ | reflexivity].
    apply List.Exists_exists.
    destruct (first_collision c cs)
      as [Hnone | (pre & hit & post & -> & Hpre & Hhit)].
    + apply check_intersect_clear in Hnone. congruence.
    + exists hit. split; [| exact Hhit].
      apply in_or_app. right. now left.
  - split; [discriminate |].
    intros H. apply check_intersect_clear in E.
    apply List.Exists_exists in H as (c2 & Hin & Hc).
    rewrite List.Forall_forall in E. exfalso. exact (E c2 Hin Hc).
Qed.

Lemma check_intersect_one (c1 c2 : Circle.t) :
  Circle.check_intersect c1 [c2] = true <-> collides c1 c2.
Proof.
  rewrite check_intersect_hit. split.
  - intros H. inversion H as [? ? Hc | ? ? Hc]; [exact Hc | inversion Hc].
  - intros H. now constructor.
Qed.

Lemma bool_eq_iff (a b : bool) : (a = true <-> b = true) -> a = b.
Proof. destruct a, b; intros [H1 H2]; auto; symmetry; auto. Qed.

(** X11: the test of one circle against another does not depend on which
    of the two is the candidate. *)
Theorem check_intersect_symmetric (c1 c2 : Circle.t) :
  Circle.check_intersect c1 [c2] = Circle.check_intersect c2 [c1].
Proof.
  apply bool_eq_iff. rewrite !check_intersect_one. apply collides_sym.
Qed.

(** X12: the verdict on a list put together from two lists is the
    disjunction of the two verdicts, and the verdict is the same on every
    reordering of a list. *)
Theorem check_intersect_order_free (c : Circle.t) :
  (forall cs1 cs2 : list Circle.t,
      Circle.check_intersect c (cs1 ++ cs2)
      = Circle.check_intersect c cs1 || Circle.check_intersect c cs2)
  /\ (forall cs cs' : list Circle.t,
        Permutation cs cs' ->
        Circle.check_intersect c cs = Circle.check_intersect c cs').
Proof.
  split.
  - intros cs1 cs2. apply bool_eq_iff.
    rewrite orb_true_iff, !check_intersect_hit. apply Exists_app.
  - intros cs cs' Hp. apply bool_eq_iff. rewrite !check_intersect_hit.
    rewrite !List.Exists_exists. split; intros (x & Hin & Hx); exists x;
      (split; [| exact Hx]).
    + now apply (Permutation_in _ Hp).
    + now apply (Permutation_in _ (Permutation_sym Hp)).
Qed.

Lemma check_intersect_order_free_witness :
  let a := Circle.init "m" (0, 0) (1 / 10) in
  let b := Circle.init "m" (1 / 2, 0) (1 / 10) in
  Circle.check_intersect a [a; b] = Circle.check_intersect a [b; a].
Proof.
  intros a b. apply (proj2 (check_intersect_order_free a)).
  apply perm_swap.
Defined.

(** X14: a circle that is inside the square and clear of a list of
    circles stays so when its radius is assigned a smaller value. *)
Theorem shrink_keeps_placement (c : Circle.t) (cs : list Circle.t)
    (b value : R) :
  value <= Circle.radius c ->
  (Circle.is_location_inside_square c b = true ->
   Circle.is_location_inside_square (Circle.set_radius value c) b = true)
  /\ (Circle.check_intersect c cs = false ->
      Circle.check_intersect (Circle.set_radius value c) cs = false).
Proof.
  intros Hv. split.
  - intros H. apply inside_square_bounds in H.
    apply inside_square_from_bounds;
      change (Circle.radius (Circle.set_radius value c)) with value;
      change (Ellipse.centre (Circle.set_radius value c))
        with (Ellipse.centre c); lra.
  - rewrite !check_intersect_clear. intros H.
    apply (List.Forall_impl _ (P := fun c2 => ~ collides c c2)); [| exact H].
    intros c2 Hn Hc. apply Hn. unfold collides in *.
    change (Circle.radius (Circle.set_radius value c)) with value in Hc.
    change (Ellipse.centre (Circle.set_radius value c))
      with (Ellipse.centre c) in Hc. lra.
Qed.

Lemma shrink_keeps_placement_witness :
  Circle.is_location_inside_square
    (Circle.set_radius (1 / 10) (Circle.init "m" (1 / 2, 1 / 2) (1 / 4))) 0
  = true.
Proof.
  refine (proj1 (shrink_keeps_placement
                   (Circle.init "m" (1 / 2, 1 / 2) (1 / 4)) [] 0 (1 / 10) _) _).
  - cbn. lra.
  - apply inside_square_from_bounds; cbn; lra.
Defined.

End CollisionLaws.

(** ** The exporters, continued *)

Section ExportLaws.

Local Open Scope R_scope.

Variable f : formatter.

Lemma degenerate_or_not (shapes : list Shape) :
  has_degenerate_ellipse shapes \/ no_degenerate_ellipse shapes.
Proof.
  induction shapes as [| s rest [(e & Hin & He) | IH]].
  - right. intros e [].
  - left. exists e. split; [now right | exact He].
  - destruct s as [e | c | r].
    + destruct (Req_dec_T (Ellipse.long_axis e) 0) as [E | E].
      * left. exists e. split; [now left | exact E].
      * right. intros e' [H | H]; [now injection H as <- | now apply IH].
    + right. intros e' [H | H]; [discriminate H | now apply IH].
    + right. intros e' [H | H]; [discriminate H | now apply IH].
Qed.

Lemma degenerate_excludes (shapes : list Shape) :
  has_degenerate_ellipse shapes -> no_degenerate_ellipse shapes -> False.
Proof. intros (e & Hin & He) Hno. exact (Hno e Hin He). Qed.

Lemma export_lines_raises (shapes : list Shape) (output_str : string) :
  has_degenerate_ellipse shapes ->
  export_lines f shapes output_str = Raise ZeroDivisionError.
Proof.
  revert output_str. induction shapes as [| s rest IH];
    intros output_str (e & Hin & He); [destruct Hin |].
  destruct (degenerate_or_not [s]) as [(e1 & [H1 | []] & He1) | Hs].
  - subst s. now apply export_lines_degenerate.
  - destruct Hin as [-> | Hin].
    { exfalso. apply (Hs e); [now left | exact He]. }
    cbn [export_lines].
    destruct (format_shape_line f s) as (line & -> & _).
    { intros e1 ->. apply Hs. now left. }
    cbn [mbind result_bind]. apply IH. now exists e.
Qed.

(** X17: each exporter raises exactly when the collection has an ellipse
    whose long axis is zero, and what it raises then is
    [ZeroDivisionError]; a collection of circles and rectangles is always
    exported. *)
Theorem ExportInclusions_raises_iff (shapes : list Shape) :
  (raises (Circle_ExportInclusions f shapes) <-> has_degenerate_ellipse shapes)
  /\ (raises (Ellipse_ExportInclusions f shapes)
      <-> has_degenerate_ellipse shapes)
  /\ (has_degenerate_ellipse shapes ->
      Circle_ExportInclusions f shapes = Raise ZeroDivisionError
      /\ Ellipse_ExportInclusions f shapes = Raise ZeroDivisionError).
Proof.
  unfold Circle_ExportInclusions, Ellipse_ExportInclusions, raises.
  destruct (degenerate_or_not shapes) as [Hd | Hno].
  - rewrite !(export_lines_raises shapes _ Hd).
    split; [| split].
    + split; [intros _; exact Hd | intros _; now eexists].
    + split; [intros _; exact Hd | intros _; now eexists].
    + intros _. now split.
  - rewrite !(export_lines_report f shapes _ Hno).
    assert (Hnot : has_degenerate_ellipse shapes -> False)
      by (intros Hd; exact (degenerate_excludes shapes Hd Hno)).
    split; [| split].
    + split; [intros [ex E]; discriminate E | intros Hd; now exfalso].
    + split; [intros [ex E]; discriminate E | intros Hd; now exfalso].
    + intros Hd. now exfalso.
Qed.

Lemma report_lines_app (a b : list Shape) :
  report_lines f (a ++ b) = report_lines f a +:+ report_lines f b.
Proof.
  induction a as [| s a IH]; cbn [app report_lines]; [reflexivity |].
  now rewrite IH, append_assoc.
Qed.

(** X18: the report grows at its end.  When a collection is exported and
    further shapes without a degenerate ellipse are put after it, the
    report of the longer collection is the report of the shorter followed
    by the lines of the further shapes. *)
Theorem ExportInclusions_extends (a b : list Shape) (text : string) :
  no_degenerate_ellipse b ->
  (Circle_ExportInclusions f a = Return text ->
   Circle_ExportInclusions f (a ++ b) = Return (text +:+ report_lines f b))
  /\ (Ellipse_ExportInclusions f a = Return text ->
      Ellipse_ExportInclusions f (a ++ b) = Return (text +:+ report_lines f b)).
Proof.
  intros Hb.
  assert (Hab : no_degenerate_ellipse a -> no_degenerate_ellipse (a ++ b)).
  { intros Ha e Hin. apply in_app_or in Hin as [Hin | Hin];
      [now apply Ha | now apply Hb]. }
  unfold Circle_ExportInclusions, Ellipse_ExportInclusions.
  destruct (degenerate_or_not a) as [Hd | Ha].
  - rewrite !(export_lines_raises a _ Hd). split; discriminate.
  - rewrite !(export_lines_report f a _ Ha).
    rewrite !(export_lines_report f (a ++ b) _ (Hab Ha)).
    split; intros E; injection E as <-;
      now rewrite report_lines_app, <- !append_assoc.
Qed.

End ExportLaws.

Lemma ExportInclusions_raises_iff_witness :
  let f := {| fmt_number := fun _ => "0"; fmt_object := fun _ => "r" |} in
  let e := Ellipse.init "m" (0, 0)%R 0 0 0 in
  Circle_ExportInclusions f [AnEllipse e] = Raise ZeroDivisionError.
Proof.
  intros f e.
  refine (proj1 (proj2 (proj2 (ExportInclusions_raises_iff f [AnEllipse e])) _)).
  exists e. split; [now left | reflexivity].
Defined.

Lemma ExportInclusions_extends_witness :
  let f := {| fmt_number := fun _ => "0"; fmt_object := fun _ => "r" |} in
  let c := ACircle (Circle.init "m" (1 / 2, 1 / 2)%R (1 / 5)) in
  Circle_ExportInclusions f ([c] ++ [c])
  = Return ((matrix_header +:+ circle_header +:+ report_lines f [c])
            +:+ report_lines f [c]).
Proof.
  intros f c.
  refine (proj1 (ExportInclusions_extends f [c] [c] _ _) _).
  - intros e [H | []]. discriminate H.
  - reflexivity.
Defined.

(** ** The factory, continued *)

Section FactoryLaws.

Import ShapeFactory.

Lemma create_class (k : factory_class) (kw : kwargs) (s : Shape) :
  create k kw = Return s -> factory_of s = k.
Proof.
  destruct k; cbn [create].
  - destruct (kw_radius kw), (kw_other kw), (kw_material kw);
      intros H; try discriminate H; now injection H as <-.
  - destruct (kw_short_axis kw), (kw_long_axis kw), (kw_angle kw),
      (kw_other kw), (kw_material kw);
      intros H; try discriminate H; now injection H as <-.
  - discriminate.
Qed.

(** What a call does, by the outcome of [eval] on the kind. *)
Lemma createShape_outcome (shape : string) (kw : kwargs) (st st1 : state)
    (r : result Shape) :
  registry_ok st ->
  createShape shape kw st = Some (r, st1) ->
  (exists k fa,
      eval_Factory shape = Some (Return k) /\ r = create k kw
      /\ factories st1 !! shape = Some fa /\ cls fa = k)
  \/ (exists e,
        eval_Factory shape = Some (Raise e) /\ r = Raise e /\ st1 = st).
Proof.
  intros Hok H. unfold createShape in H.
  destruct (factories st !! shape) as [fa |] eqn:Hl.
  - injection H as <- <-. left. exists (cls fa), fa.
    destruct (Hok shape fa Hl) as [He _]. now repeat split.
  - destruct (eval_Factory shape) as [[k | e] |] eqn:He; [| | discriminate H].
    + injection H as <- <-. left. exists k, (mk_factory k (allocated st)).
      split; [reflexivity |]. split; [reflexivity |].
      split; [apply lookup_insert_eq | reflexivity].
    + injection H as <- <-. right. exists e. now repeat split.
Qed.

Lemma createShape_of_class (shape : string) (kw : kwargs) (st : state)
    (k : factory_class) :
  registry_ok st -> class_named shape = Some k ->
  exists st1 fa,
    createShape shape kw st = Some (create k kw, st1)
    /\ factories st1 !! shape = Some fa /\ cls fa = k.
Proof.
  intros Hok Hk. destruct (class_named_shapes shape k Hk) as [_ Hev].
  destruct (factories st !! shape) as [fa |] eqn:Hl.
  - exists st, fa. destruct (Hok shape fa Hl) as [He _].
    rewrite Hev in He. injection He as He.
    rewrite (createShape_cached shape kw st fa Hl), <- He. now repeat split.
  - eexists _, (mk_factory k (allocated st)).
    rewrite (createShape_first_use shape kw st k Hk Hl).
    split; [reflexivity |]. split; [apply lookup_insert_eq | reflexivity].
Qed.

(** X19: a circle asked of the factory with a material, a centre and a
    radius is built with them, and its line in the report shows the
    centre, the radius and the area pi r r. *)
Theorem createShape_circle_exported (f : formatter) (m : Material)
    (centre : R * R) (r : R) (st : state) :
  registry_ok st ->
  exists st1 c,
    createShape "Circle" (circle_kwargs m centre r) st
    = Some (Return (ACircle c), st1)
    /\ Ellipse.material c = m /\ Ellipse.centre c = centre
    /\ Circle.radius c = r
    /\ Circle_ExportInclusions f [ACircle c]
       = Return (matrix_header +:+ circle_header
                 +:+ fmt_number f (fst centre) +:+ ", "
                 +:+ fmt_number f (snd centre) +:+ ", "
                 +:+ fmt_number f r +:+ ", "
                 +:+ fmt_number f (PI * r * r)%R +:+ nl).
Proof.
  intros Hok.
  destruct (createShape_of_class "Circle" (circle_kwargs m centre r) st
              CircleFactory Hok eq_refl) as (st1 & fa & E & _).
  exists st1, (Circle.init m centre r). split; [exact E |].
  split; [reflexivity |]. split; [reflexivity |]. split; [reflexivity |].
  unfold Circle_ExportInclusions.
  rewrite export_lines_report by (intros e [H | []]; discriminate H).
  unfold matrix_header, circle_header.
  cbn [report_lines]. unfold report_line, circle_columns.
  cbn [map join].
  rewrite append_empty, !append_assoc. reflexivity.
Qed.

Lemma createShape_circle_exported_witness :
  exists st1 c,
    createShape "Circle" (circle_kwargs "steel" (1 / 2, 1 / 2)%R (1 / 5)) initial
    = Some (Return (ACircle c), st1)
    /\ Circle.radius c = (1 / 5)%R.
Proof.
  destruct (createShape_circle_exported
              {| fmt_number := fun _ => "0"; fmt_object := fun _ => "r" |}
              "steel" (1 / 2, 1 / 2)%R (1 / 5) initial initial_ok)
    as (st1 & c & E & _ & _ & Hr & _).
  exists st1, c. split; [exact E | exact Hr].
Defined.

(** X20: the kind [Rectangle] never yields a shape: whatever the
    keywords, the call raises [TypeError]; and the call that fails still
    leaves a factory for the kind in the registry. *)
Theorem createShape_rectangle_fails (kw : kwargs) (st : state) :
  registry_ok st ->
  exists st1 fa,
    createShape "Rectangle" kw st = Some (Raise TypeError, st1)
    /\ factories st1 !! "Rectangle" = Some fa
    /\ cls fa = RectangleFactory.
Proof.
  intros Hok.
  exact (createShape_of_class "Rectangle" kw st RectangleFactory Hok eq_refl).
Qed.

Lemma createShape_rectangle_fails_witness :
  exists st1 fa,
    createShape "Rectangle" sample_kwargs initial = Some (Raise TypeError, st1)
    /\ factories st1 !! "Rectangle" = Some fa
    /\ cls fa = RectangleFactory.
Proof. exact (createShape_rectangle_fails sample_kwargs initial initial_ok). Defined.

Lemma createShape_outcome_unique (shape : string) (kw : kwargs)
    (st st' st1 st1' : state) (r r' : result Shape) :
  registry_ok st -> registry_ok st' ->
  createShape shape kw st = Some (r, st1) ->
  createShape shape kw st' = Some (r', st1') ->
  r = r'.
Proof.
  intros Hok Hok' H H'.
  destruct (createShape_outcome _ _ _ _ _ Hok H)
    as [(k & fa & He & Hr & _) | (e & He & Hr & _)];
    destruct (createShape_outcome _ _ _ _ _ Hok' H')
      as [(k' & fa' & He' & Hr' & _) | (e' & He' & Hr' & _)];
    rewrite He in He'; try discriminate He';
    injection He' as <-; now rewrite Hr, Hr'.
Qed.

(** A call for a kind that is a name has an outcome. *)
Lemma createShape_named (shape : string) (kw : kwargs) (st : state) :
  named shape = true ->
  exists r st1, createShape shape kw st = Some (r, st1).
Proof.
  intros Hn. unfold createShape.
  destruct (factories st !! shape) as [fa |]; [now eexists _, _ |].
  unfold eval_Factory. unfold named in Hn. rewrite Hn.
  destruct (class_named _); now eexists _, _.
Qed.

(** X21: for a kind that is a name, blanks around it allowed, the
    registry is not observable in what a call returns or raises: on every
    two registries filled by such calls the call has an outcome, and the
    same one. *)
Theorem createShape_outcome_stable (shape : string) (kw : kwargs)
    (st st' : state) :
  named shape = true ->
  registry_ok st -> registry_ok st' ->
  exists r st1 st1',
    createShape shape kw st = Some (r, st1)
    /\ createShape shape kw st' = Some (r, st1').
Proof.
  intros Hn Hok Hok'.
  destruct (createShape_named shape kw st Hn) as (r & st1 & E).
  destruct (createShape_named shape kw st' Hn) as (r' & st1' & E').
  exists r, st1, st1'. split; [exact E |].
  now rewrite (createShape_outcome_unique _ _ _ _ _ _ _ _ Hok Hok' E E').
Qed.

(** X22: for a kind that is a name, blanks around it allowed, a shape
    that a call returns is of the class that the name is bound to, and
    the registry then holds the factory of that class under the kind; a
    rectangle is never returned. *)
Theorem createShape_returns_kind (shape : string) (kw : kwargs)
    (st st1 : state) (s : Shape) :
  named shape = true ->
  registry_ok st ->
  createShape shape kw st = Some (Return s, st1) ->
  eval_Factory shape = Some (Return (factory_of s))
  /\ (exists fa, factories st1 !! shape = Some fa /\ cls fa = factory_of s)
  /\ factory_of s <> RectangleFactory.
Proof.
  intros _ Hok H.
  destruct (createShape_outcome _ _ _ _ _ Hok H)
    as [(k & fa & He & Hr & Hl & Hc) | (e & _ & Hr & _)];
    [| discriminate Hr].
  symmetry in Hr. pose proof (create_class k kw s Hr) as Hk.
  rewrite Hk. split; [exact He |]. split; [now exists fa |].
  intros Hrect. rewrite Hrect in Hr. discriminate Hr.
Qed.

(** The registry after the first call for the kind [Circle]. *)
Lemma createShape_circle_first :
  createShape "Circle" sample_kwargs initial
  = Some (create CircleFactory sample_kwargs,
          mk_state (<["Circle" := mk_factory CircleFactory 0]> ∅) 1).
Proof.
  exact (createShape_first_use "Circle" sample_kwargs initial CircleFactory
           eq_refl (lookup_empty _)).
Qed.

Lemma createShape_outcome_stable_witness :
  exists r st1 st1',
    createShape "Circle " sample_kwargs initial = Some (r, st1)
    /\ createShape "Circle " sample_kwargs
         (mk_state (<["Circle" := mk_factory CircleFactory 0]> ∅) 1)
       = Some (r, st1').
Proof.
  apply createShape_outcome_stable; [reflexivity | exact initial_ok |].
  exact (createShape_ok _ _ _ _ _ initial_ok createShape_circle_first).
Defined.

Lemma createShape_returns_kind_witness :
  eval_Factory "Circle" = Some (Return CircleFactory).
Proof.
  exact (proj1 (createShape_returns_kind "Circle" sample_kwargs initial _
                  (ACircle (Circle.init "steel" (1 / 2, 1 / 2)%R (1 / 5)))
                  eq_refl initial_ok createShape_circle_first)).
Defined.

Lemma createShape_keeps (shape : string) (kw : kwargs) (st st1 : state)
    (r : result Shape) (k : string) (fa : factory) :
  createShape shape kw st = Some (r, st1) ->
  factories st !! k = Some fa ->
  factories st1 !! k = Some fa.
Proof.
  intros H Hk. unfold createShape in H.
  destruct (factories st !! shape) as [fb |] eqn:Hl.
  { now injection H as _ <-. }
  destruct (eval_Factory shape) as [[c | e] |]; [| | discriminate H].
  - injection H as _ <-. cbn [factories].
    rewrite lookup_insert_ne; [exact Hk |]. intros ->. congruence.
  - now injection H as _ <-.
Qed.

Lemma createShape_counts (shape : string) (kw : kwargs) (st st1 : state)
    (r : result Shape) :
  createShape shape kw st = Some (r, st1) ->
  allocated st = size (factories st) ->
  allocated st1 = size (factories st1)
  /\ (allocated st1 <= S (allocated st))%nat.
Proof.
  intros H Hn. unfold createShape in H.
  destruct (factories st !! shape) as [fb |] eqn:Hl.
  { injection H as _ <-. split; [exact Hn | lia]. }
  destruct (eval_Factory shape) as [[c | e] |]; [| | discriminate H].
  - injection H as _ <-. cbn [factories allocated].
    rewrite map_size_insert_None by exact Hl. split; lia.
  - injection H as _ <-. split; [exact Hn | lia].
Qed.

Lemma createShape_all_keeps_some (calls : list (string * kwargs))
    (st st' : state) (k : string) (fa : factory) :
  createShape_all calls st = Some st' ->
  factories st !! k = Some fa ->
  factories st' !! k = Some fa.
Proof.
  revert st. induction calls as [| [shape kw] calls IH]; intros st H Hk;
    cbn [createShape_all] in H.
  - now injection H as <-.
  - destruct (createShape shape kw st) as [[r st1] |] eqn:E; [| discriminate H].
    apply (IH st1 H). exact (createShape_keeps _ _ _ _ _ _ _ E Hk).
Qed.

Lemma createShape_all_counts_some (calls : list (string * kwargs)) (st' : state) :
  createShape_all calls initial = Some st' ->
  registry_ok st'
  /\ allocated st' = size (factories st')
  /\ (allocated st' <= length calls)%nat.
Proof.
  assert (Hgen : forall st,
             createShape_all calls st = Some st' ->
             registry_ok st -> allocated st = size (factories st) ->
             registry_ok st' /\ allocated st' = size (factories st')
             /\ (allocated st' <= allocated st + length calls)%nat).
  { induction calls as [| [shape kw] calls IH]; intros st H Hok Hn;
      cbn [createShape_all] in H.
    - injection H as <-.
      split; [exact Hok |]. split; [exact Hn |]. cbn [length]. lia.
    - destruct (createShape shape kw st) as [[r st1] |] eqn:E;
        [| discriminate H].
      destruct (createShape_counts _ _ _ _ _ E Hn) as [Hn1 Hle].
      destruct (IH st1 H (createShape_ok _ _ _ _ _ Hok E) Hn1)
        as (Hok' & Hn' & Hle').
      split; [exact Hok' |]. split; [exact Hn' |]. cbn [length]. lia. }
  intros H. apply (Hgen initial H initial_ok). reflexivity.
Qed.

(** A sequence of calls for kinds that are names runs to its end. *)
Lemma createShape_all_named (calls : list (string * kwargs)) (st : state) :
  Forall (fun call => named (fst call) = true) calls ->
  exists st', createShape_all calls st = Some st'.
Proof.
  intros H. revert st.
  induction H as [| [shape kw] calls Hn _ IH]; intros st;
    cbn [createShape_all]; [now eexists |].
  destruct (createShape_named shape kw st Hn) as (r & st1 & ->).
  apply IH.
Qed.

(** X23: through every sequence of calls for kinds that are names,
    blanks around them allowed, a factory object stored under a kind
    stays there: it is neither replaced nor removed. *)
Theorem createShape_all_keeps (calls : list (string * kwargs))
    (st : state) (k : string) (fa : factory) :
  Forall (fun call => named (fst call) = true) calls ->
  factories st !! k = Some fa ->
  exists st', createShape_all calls st = Some st'
              /\ factories st' !! k = Some fa.
Proof.
  intros Hn Hk. destruct (createShape_all_named calls st Hn) as [st' E].
  exists st'. split; [exact E |].
  exact (createShape_all_keeps_some calls st st' k fa E Hk).
Qed.

(** X24: every sequence of calls for kinds that are names, blanks around
    them allowed, runs from the empty registry to a registry in which
    every key holds an instance of the class that its name is bound to,
    with as many factory objects as keys, at most one created per
    call. *)
Theorem createShape_all_counts (calls : list (string * kwargs)) :
  Forall (fun call => named (fst call) = true) calls ->
  exists st', createShape_all calls initial = Some st'
              /\ registry_ok st'
              /\ allocated st' = size (factories st')
              /\ (allocated st' <= length calls)%nat.
Proof.
  intros Hn. destruct (createShape_all_named calls initial Hn) as [st' E].
  exists st'. split; [exact E |].
  exact (createShape_all_counts_some calls st' E).
Qed.

Lemma createShape_all_keeps_witness :
  exists st',
    createShape_all [("Circle", sample_kwargs)]
      (mk_state (<["Circle" := mk_factory CircleFactory 0]> ∅) 1) = Some st'
    /\ factories st' !! "Circle" = Some (mk_factory CircleFactory 0).
Proof.
  apply createShape_all_keeps.
  - repeat constructor.
  - apply lookup_insert_eq.
Defined.

Lemma createShape_all_counts_witness :
  exists st',
    createShape_all [("Circle", sample_kwargs); ("Circle ", sample_kwargs)]
      initial = Some st'
    /\ registry_ok st'
    /\ allocated st' = size (factories st')
    /\ (allocated st' <= 2)%nat.
Proof. apply createShape_all_counts. repeat constructor. Defined.

End FactoryLaws.
